(** * Penman-Planner: the evaporation model, the storage-planning model and
      the persistence contract of [backend/server.py]

    The Python code computes on [float].  This development reads every float
    as the real number it denotes ([R] of the Standard Library), which is the
    level at which the specification states its formulas, and keeps the
    failures of Python's partial operations in the [option] monad ([None] is
    a raised exception): [/] raises [ZeroDivisionError] on a zero divisor
    ([py_truediv]), [math.exp] and [**] raise [OverflowError] when their
    result leaves the float range ([math_exp], [py_pow]).

    What the reading leaves out is the rounding of float arithmetic, about
    one part in 10^16 per operation.  It can move a value across the tie of
    a later [round(x, n)], so a reported decimal of the code can differ from
    the model's by one unit of its last place; and where a product leaves the
    float range the code goes on with [inf] and [nan], which the reals do not
    have.  The theorems below are therefore stated on explicit input ranges
    and, for rounded values, as "has [n] decimals and lies within half a unit
    of the last place (plus the float error) of the exact value". *)

From Stdlib Require Import Reals Lra Lia ZArith NArith List String Ascii Bool.
From Stdlib Require Import Sorted Permutation.
Import ListNotations.

Open Scope R_scope.

(* ================================================================= *)
(** ** Python primitives used by the program *)

(** Exceptions: [None] is a raised exception, [Some v] a returned value. *)
Definition bind {A B : Type} (m : option A) (k : A -> option B) : option B :=
  match m with
  | Some a => k a
  | None => None
  end.

Notation "x <- m ;; k" := (bind m (fun x => k))
  (at level 61, m at next level, right associativity).

(** [a / b] on floats: raises [ZeroDivisionError] when [b] is zero. *)
Definition py_truediv (a b : R) : option R :=
  if Req_dec_T b 0 then None else Some (a / b).

(** The largest finite float (binary64). *)
Definition float_max : R := 1.7976931348623157e308.

(** The largest [x] with [exp x] in the float range: the logarithm of
    [float_max], 709.78271289338397..., cut to 12 decimals. *)
Definition exp_overflow_threshold : R := 709.782712893383.

(** [math.exp(x)]: [OverflowError] ("math range error") when the result
    leaves the float range. *)
Definition math_exp (x : R) : option R :=
  if Rlt_dec exp_overflow_threshold x then None else Some (exp x).

(** [x ** n] on floats: [OverflowError] when the result leaves the float
    range. *)
Definition py_pow (x : R) (n : nat) : option R :=
  if Rlt_dec float_max (Rabs (x ^ n)) then None else Some (x ^ n).

(** Rounding of a real to the nearest integer, ties to the even one: the rule
    of Python's [round]. *)
Definition round_half_even (y : R) : Z :=
  let f := Zfloor y in
  let d := y - IZR f in
  if Rlt_dec d (1 / 2) then f
  else if Rlt_dec (1 / 2) d then (f + 1)%Z
  else if Z.even f then f else (f + 1)%Z.

(** [round(x, ndigits)].  Python applies the rule to the exact binary value
    of the float, which is hardly ever a decimal tie; the exact reals of this
    model do sit on ties, and there the model and the code can choose
    different neighbours.  Statements about a rounded value of the code
    therefore use [rounded_to], which leaves that choice open. *)
Definition py_round (x : R) (ndigits : nat) : R :=
  IZR (round_half_even (x * 10 ^ ndigits)) / 10 ^ ndigits.




(** A [dict] with string keys, in insertion order (Python dicts keep it). *)
Definition dict (V : Type) : Type := list (string * V).

Fixpoint dict_get {V : Type} (d : dict V) (k : string) : option V :=
  match d with
  | [] => None
  | (k', v) :: d' => if String.eqb k' k then Some v else dict_get d' k
  end.

(** [d[k] = v]: overwrite in place when the key is present, append otherwise. *)
Fixpoint dict_set {V : Type} (d : dict V) (k : string) (v : V) : dict V :=
  match d with
  | [] => [(k, v)]
  | (k', v') :: d' =>
      if String.eqb k' k then (k', v) :: d' else (k', v') :: dict_set d' k v
  end.

Definition dict_values {V : Type} (d : dict V) : list V := map snd d.

(** [sum(xs)]: left fold from 0. *)
Definition py_sum (xs : list R) : R := fold_left Rplus xs 0.

(* ================================================================= *)
(** ** Timestamps: [datetime], [isoformat], [datetime.fromisoformat]

    Every timestamp of the program is made by [datetime.now(timezone.utc)],
    so a [datetime] here is an aware UTC one: its seven calendar fields, the
    offset being always [+00:00]. *)

Module datetime.
Record t : Type := mk {
  year : N;
  month : N;
  day : N;
  hour : N;
  minute : N;
  second : N;
  microsecond : N
}.
End datetime.

Section DateTime.
Local Open Scope string_scope.
Local Open Scope N_scope.

Definition is_leap (y : N) : bool :=
  (y mod 4 =? 0) && (negb (y mod 100 =? 0) || (y mod 400 =? 0)).

Definition days_in_month (y m : N) : N :=
  if m =? 2 then (if is_leap y then 29 else 28)
  else if (m =? 4) || (m =? 6) || (m =? 9) || (m =? 11) then 30
  else 31.

(** The range checks of the [datetime] constructor ([ValueError] when one
    fails). *)
Definition valid_datetime (d : datetime.t) : bool :=
  (1 <=? datetime.year d) && (datetime.year d <=? 9999) &&
  (1 <=? datetime.month d) && (datetime.month d <=? 12) &&
  (1 <=? datetime.day d) &&
  (datetime.day d <=? days_in_month (datetime.year d) (datetime.month d)) &&
  (datetime.hour d <? 24) && (datetime.minute d <? 60) &&
  (datetime.second d <? 60) && (datetime.microsecond d <? 1000000).

Definition digit_char (n : N) : ascii := ascii_of_N (48 + n).

Definition digit_val (c : ascii) : option N :=
  let n := N_of_ascii c in
  if (48 <=? n) && (n <=? 57) then Some (n - 48) else None.

(** ["%0<width>d" % n] for a field that fits its width: the [width] low
    decimal digits of [n], most significant first. *)
Fixpoint zpad (width : nat) (n : N) : string :=
  match width with
  | O => EmptyString
  | S w => String (digit_char ((n / 10 ^ N.of_nat w) mod 10)) (zpad w n)
  end.

(** [d.isoformat()] of an aware UTC datetime:
    [YYYY-MM-DDTHH:MM:SS[.ffffff]+00:00], the fraction being left out when
    the microsecond is 0. *)
Definition isoformat (d : datetime.t) : string :=
  zpad 4 (datetime.year d) ++ "-" ++ zpad 2 (datetime.month d) ++ "-" ++
  zpad 2 (datetime.day d) ++ "T" ++ zpad 2 (datetime.hour d) ++ ":" ++
  zpad 2 (datetime.minute d) ++ ":" ++ zpad 2 (datetime.second d) ++
  (if datetime.microsecond d =? 0 then ""
   else "." ++ zpad 6 (datetime.microsecond d)) ++
  "+00:00".

(** Reads exactly [width] decimal digits. *)
Fixpoint parse_digits (width : nat) (acc : N) (s : string)
    : option (N * string) :=
  match width with
  | O => Some (acc, s)
  | S w =>
      match s with
      | EmptyString => None
      | String c s' => d <- digit_val c ;; parse_digits w (acc * 10 + d) s'
      end
  end.

(** Reads the one character [c]. *)
Definition expect (c : ascii) (s : string) : option string :=
  match s with
  | String c' s' => if Ascii.eqb c' c then Some s' else None
  | EmptyString => None
  end.

(** Reads any one character (the date/time separator). *)
Definition skip_char (s : string) : option string :=
  match s with
  | String _ s' => Some s'
  | EmptyString => None
  end.

(** The optional [.ffffff] fraction. *)
Definition parse_fraction (s : string) : option (N * string) :=
  match s with
  | String "."%char s' => parse_digits 6 0 s'
  | _ => Some (0, s)
  end.

(** [datetime.fromisoformat(s)] on the strings this program stores: the
    inverse of [isoformat] for aware UTC datetimes.  [None] stands for every
    other string; what CPython does with one (a [ValueError], or a datetime
    read from another spelling: a [Z] suffix, another offset, no offset, a
    date alone) is not modelled, so nothing is stated below about documents
    that the handlers did not write. *)
Definition fromisoformat (s : string) : option datetime.t :=
  ys <- parse_digits 4 0 s ;;
  s1 <- expect "-" (snd ys) ;;
  ms <- parse_digits 2 0 s1 ;;
  s2 <- expect "-" (snd ms) ;;
  ds <- parse_digits 2 0 s2 ;;
  s3 <- skip_char (snd ds) ;;
  hs <- parse_digits 2 0 s3 ;;
  s4 <- expect ":" (snd hs) ;;
  mins <- parse_digits 2 0 s4 ;;
  s5 <- expect ":" (snd mins) ;;
  ss <- parse_digits 2 0 s5 ;;
  us <- parse_fraction (snd ss) ;;
  if String.eqb (snd us) "+00:00" then
    let d := datetime.mk (fst ys) (fst ms) (fst ds) (fst hs) (fst mins)
               (fst ss) (fst us) in
    if valid_datetime d then Some d else None
  else None.

(** Comparison of two aware UTC datetimes, as [datetime.__lt__] does it:
    field by field, most significant first. *)
Definition dt_key (d : datetime.t) : list N :=
  [ datetime.year d; datetime.month d; datetime.day d; datetime.hour d;
    datetime.minute d; datetime.second d; datetime.microsecond d ].

Fixpoint lex_compare (a b : list N) : comparison :=
  match a, b with
  | [], [] => Eq
  | [], _ :: _ => Lt
  | _ :: _, [] => Gt
  | x :: a', y :: b' =>
      match x ?= y with
      | Eq => lex_compare a' b'
      | c => c
      end
  end.

Definition dt_compare (d1 d2 : datetime.t) : comparison :=
  lex_compare (dt_key d1) (dt_key d2).
End DateTime.

(* ================================================================= *)
(** ** Records of the data model (the pydantic models) *)

Module WeatherInput.
Record t : Type := mk {
  temperature : R;
  humidity : R;
  wind_speed : R;
  solar_radiation : R;
  location : option string
}.
End WeatherInput.

Module EvaporationResult.
Record t : Type := mk {
  id : string;
  evaporation_rate : R;
  weather_input : WeatherInput.t;
  penman_components : dict R;
  timestamp : datetime.t
}.
End EvaporationResult.

Module StoragePlanningResult.
Record t : Type := mk {
  id : string;
  reservoir_capacity_needed : R;
  seasonal_analysis : dict (dict R);
  irrigation_recommendations : list (dict string);
  water_balance : dict R;
  evaporation_data : EvaporationResult.t;
  timestamp : datetime.t
}.
End StoragePlanningResult.

Module StatusCheck.
Record t : Type := mk {
  id : string;
  client_name : string;
  timestamp : datetime.t
}.
End StatusCheck.

Module StatusCheckCreate.
Record t : Type := mk { client_name : string }.
End StatusCheckCreate.

(* ================================================================= *)
(** ** The evaporation model *)

(** [calculate_penman_evaporation(temperature, humidity, wind_speed,
    solar_radiation)], statement by statement.  It raises where the code
    raises: at the pole -237.3, where [math.exp] overflows (just below the
    pole) and where [**] overflows.  For the temperatures between about
    -243.3 and -243.2178 the product [4098 * es] leaves the float range and
    the code returns the rate 0 with [inf] and [nan] among its components;
    the model has the values of the real formula there, and every theorem
    that fixes a returned value is stated for temperatures above the pole. *)
Definition calculate_penman_evaporation
    (temperature humidity wind_speed solar_radiation : R)
    : option (R * dict R) :=
  let psychrometric_constant := 0.665 in
  q <- py_truediv (17.27 * temperature) (temperature + 237.3) ;;
  e <- math_exp q ;;
  let es := 0.6108 * e in
  rh <- py_truediv humidity 100.0 ;;
  let ea := es * rh in
  sq <- py_pow (temperature + 237.3) 2 ;;
  delta <- py_truediv (4098 * es) sq ;;
  rn <- py_truediv solar_radiation 2.45 ;;
  let wind_function := 2.6 * (1 + 0.54 * wind_speed) in
  wr <- py_truediv delta (delta + psychrometric_constant) ;;
  let radiation_component := wr * rn in
  wa <- py_truediv psychrometric_constant (delta + psychrometric_constant) ;;
  let aerodynamic_component := wa * wind_function * (es - ea) in
  let evaporation := radiation_component + aerodynamic_component in
  let components :=
    [ ("radiation_component"%string, py_round radiation_component 3);
      ("aerodynamic_component"%string, py_round aerodynamic_component 3);
      ("saturation_vapor_pressure"%string, py_round es 3);
      ("actual_vapor_pressure"%string, py_round ea 3);
      ("vapor_pressure_deficit"%string, py_round (es - ea) 3);
      ("slope_vapor_pressure"%string, py_round delta 3);
      ("wind_function"%string, py_round wind_function 3);
      ("net_radiation_equivalent"%string, py_round rn 3) ] in
  Some (Rmax 0 evaporation, components).

(** The formulas of the specification, written as it words them; the
    refinement theorems compare the code above with these. *)
Module PenmanSpec.
Definition es (T : R) : R := 0.6108 * exp (17.27 * T / (T + 237.3)).
Definition ea (T h : R) : R := es T * h / 100.
Definition delta (T : R) : R := 4098 * es T / (T + 237.3) ^ 2.
Definition rn (s : R) : R := s / 2.45.
Definition fu (w : R) : R := 2.6 * (1 + 0.54 * w).
Definition psychro : R := 0.665.
Definition radiation_component (T s : R) : R :=
  delta T / (delta T + psychro) * rn s.
Definition aerodynamic_component (T h w : R) : R :=
  psychro / (delta T + psychro) * fu w * (es T - ea T h).
Definition raw (T h w s : R) : R :=
  radiation_component T s + aerodynamic_component T h w.
Definition round3 (x : R) : R := py_round x 3.
Definition components (T h w s : R) : dict R :=
  [ ("radiation_component"%string, round3 (radiation_component T s));
    ("aerodynamic_component"%string, round3 (aerodynamic_component T h w));
    ("saturation_vapor_pressure"%string, round3 (es T));
    ("actual_vapor_pressure"%string, round3 (ea T h));
    ("vapor_pressure_deficit"%string, round3 (es T - ea T h));
    ("slope_vapor_pressure"%string, round3 (delta T));
    ("wind_function"%string, round3 (fu w));
    ("net_radiation_equivalent"%string, round3 (rn s)) ].
End PenmanSpec.


(** The temperatures at which neither the division nor [math.exp] nor [**]
    raises. *)
Definition penman_defined (T : R) : Prop :=
  T + 237.3 <> 0
  /\ 17.27 * T / (T + 237.3) <= exp_overflow_threshold
  /\ (T + 237.3) ^ 2 <= float_max.

(** The lower end of the temperatures at which [math.exp] overflows; the
    upper end is the pole -237.3. *)
Definition exp_overflow_low : R :=
  - (237.3 * exp_overflow_threshold / (exp_overflow_threshold - 17.27)).

(* ================================================================= *)
(** ** The storage-planning model *)

(** The dict literal [seasonal_factors], in its order. *)
Definition seasonal_factors : dict R :=
  [ ("spring"%string, 0.8); ("summer"%string, 1.3);
    ("autumn"%string, 0.7); ("winter"%string, 0.4) ].

(** The three static irrigation records. *)
Definition irrigation_recommendations_data : list (dict string) :=
  [ [ ("period", "Summer (Mar-Jun)");
      ("irrigation_frequency", "Every 3-4 days");
      ("water_requirement", "High");
      ("evaporation_consideration",
        "High evaporation losses — increase irrigation by 30%") ];
    [ ("period", "Rainy (Jul-Oct)");
      ("irrigation_frequency", "Every 10-15 days");
      ("water_requirement", "Low");
      ("evaporation_consideration",
        "Rainfall compensates — minimal irrigation required") ];
    [ ("period", "Winter (Nov-Feb)");
      ("irrigation_frequency", "Every 7-10 days");
      ("water_requirement", "Medium");
      ("evaporation_consideration",
        "Low evaporation — moderate irrigation needed") ] ]%string.

(** The dict returned by [calculate_storage_planning]: its four keys are
    fixed and their values have four different types. *)
Module PlanningData.
Record t : Type := mk {
  reservoir_capacity_needed : R;
  seasonal_analysis : dict (dict R);
  irrigation_recommendations : list (dict string);
  water_balance : dict R
}.
End PlanningData.

(** One turn of the loop over [seasonal_factors.items()]. *)
Definition season_entry (daily_loss : R) (seasonal_analysis : dict (dict R))
    (item : string * R) : dict (dict R) :=
  let '(season, factor) := item in
  let seasonal_loss := daily_loss * factor * 90 in
  dict_set seasonal_analysis season
    [ ("daily_evaporation_loss"%string, py_round (daily_loss * factor) 2);
      ("seasonal_total_loss"%string, py_round seasonal_loss 2);
      ("percentage_factor"%string, factor) ].

(** [season_data["seasonal_total_loss"]]; a missing key is a [KeyError]. *)
Fixpoint seasonal_totals (values : list (dict R)) : option (list R) :=
  match values with
  | [] => Some []
  | season_data :: rest =>
      x <- dict_get season_data "seasonal_total_loss" ;;
      xs <- seasonal_totals rest ;;
      Some (x :: xs)
  end.

(** [calculate_storage_planning(evaporation_result, reservoir_surface_area)]. *)
Definition calculate_storage_planning
    (evaporation_result : EvaporationResult.t) (reservoir_surface_area : R)
    : option PlanningData.t :=
  let evap_rate := EvaporationResult.evaporation_rate evaporation_result in
  q <- py_truediv evap_rate 1000 ;;
  let daily_loss := q * reservoir_surface_area in
  let seasonal_analysis :=
    fold_left (season_entry daily_loss) seasonal_factors [] in
  totals <- seasonal_totals (dict_values seasonal_analysis) ;;
  let annual_loss := py_sum totals in
  let recommended_capacity := annual_loss * 1.5 in
  let water_balance :=
    [ ("annual_evaporation_loss"%string, py_round annual_loss 2);
      ("recommended_buffer"%string, py_round (annual_loss * 0.5) 2);
      ("total_recommended_capacity"%string, py_round recommended_capacity 2);
      ("surface_area_assumed"%string, reservoir_surface_area) ] in
  Some (PlanningData.mk (py_round recommended_capacity 2) seasonal_analysis
          irrigation_recommendations_data water_balance).

(** The storage-planning formulas as the specification words them. *)
Module StorageSpec.
Definition daily_loss (r A : R) : R := r / 1000 * A.
Definition seasonal_total (r A factor : R) : R := daily_loss r A * factor * 90.
Definition round2 (x : R) : R := py_round x 2.
(** A season's record. *)
Definition season_record (r A factor : R) : dict R :=
  [ ("daily_evaporation_loss"%string, round2 (daily_loss r A * factor));
    ("seasonal_total_loss"%string, round2 (seasonal_total r A factor));
    ("percentage_factor"%string, factor) ].
(** The sum of the four recorded (rounded) seasonal totals. *)
Definition rounded_totals_sum (r A : R) : R :=
  round2 (seasonal_total r A 0.8) + round2 (seasonal_total r A 1.3)
  + round2 (seasonal_total r A 0.7) + round2 (seasonal_total r A 0.4).
(** The sum of the four seasonal totals before rounding. *)
Definition exact_totals_sum (r A : R) : R :=
  seasonal_total r A 0.8 + seasonal_total r A 1.3
  + seasonal_total r A 0.7 + seasonal_total r A 0.4.
End StorageSpec.

(** [plan["seasonal_analysis"][season][field]] and [plan["water_balance"][field]],
    as a reader of the plan takes them; a missing key is a [KeyError]. *)
Definition season_field (plan : PlanningData.t) (season field : string)
    : option R :=
  record <- dict_get (PlanningData.seasonal_analysis plan) season ;;
  dict_get record field.

Definition balance_field (plan : PlanningData.t) (field : string) : option R :=
  dict_get (PlanningData.water_balance plan) field.


(* ================================================================= *)
(** ** Fixed-point squaring

    Used to enclose [exp] at one concrete argument: fifteen decimals, one
    squaring rounded down and one rounded up. *)

Definition fx_scale : Z := (10 ^ 15)%Z.
Definition sq_down (a : Z) : Z := (a * a / fx_scale)%Z.
Definition sq_up (a : Z) : Z := ((a * a + fx_scale - 1) / fx_scale)%Z.

Fixpoint iter_sq (f : Z -> Z) (k : nat) (a : Z) : Z :=
  match k with
  | O => a
  | S k' => iter_sq f k' (f a)
  end.

(* ================================================================= *)
(** ** The document store

    A collection is the list of its documents in insertion order, which is
    the order [find()] yields without a sort.  A document is the mapping
    [model.dict()] with its fixed keys; the value under ["timestamp"] is
    whatever was stored there, a string or a date. *)

Inductive bson_ts : Type :=
  | BsonString (s : string)
  | BsonDate (d : datetime.t).

Module EvaporationDoc.
Record t : Type := mk {
  id : string;
  evaporation_rate : R;
  weather_input : WeatherInput.t;
  penman_components : dict R;
  timestamp : bson_ts
}.
End EvaporationDoc.

Module StoragePlanningDoc.
Record t : Type := mk {
  id : string;
  reservoir_capacity_needed : R;
  seasonal_analysis : dict (dict R);
  irrigation_recommendations : list (dict string);
  water_balance : dict R;
  evaporation_data : EvaporationDoc.t;
  timestamp : bson_ts
}.
End StoragePlanningDoc.

Module StatusDoc.
Record t : Type := mk {
  id : string;
  client_name : string;
  timestamp : bson_ts
}.
End StatusDoc.

Module Db.
Record t : Type := mk {
  evaporation_results : list EvaporationDoc.t;
  storage_planning_results : list StoragePlanningDoc.t;
  status_checks : list StatusDoc.t
}.
Definition empty : t := mk [] [] [].
End Db.

(** The store's order on the values of a sort key: strings by their bytes,
    dates by their instant, every string before every date. *)
Definition bson_compare (a b : bson_ts) : comparison :=
  match a, b with
  | BsonString s1, BsonString s2 => String.compare s1 s2
  | BsonString _, BsonDate _ => Lt
  | BsonDate _, BsonString _ => Gt
  | BsonDate d1, BsonDate d2 => dt_compare d1 d2
  end.

(** [.sort(key, -1)]: descending by the key.  The store promises no order
    among equal keys; this sort keeps them in insertion order. *)
Fixpoint insert_desc {A : Type} (key : A -> bson_ts) (x : A) (l : list A)
    : list A :=
  match l with
  | [] => [x]
  | y :: l' =>
      match bson_compare (key x) (key y) with
      | Lt => y :: insert_desc key x l'
      | _ => x :: l
      end
  end.

Definition sort_desc {A : Type} (key : A -> bson_ts) (l : list A) : list A :=
  fold_right (insert_desc key) [] l.

(** [insert_one]: append. *)
Definition insert_one {A : Type} (coll : list A) (doc : A) : list A :=
  coll ++ [doc].

(** A comprehension whose body can raise. *)
Fixpoint map_raise {A B : Type} (f : A -> option B) (l : list A)
    : option (list B) :=
  match l with
  | [] => Some []
  | x :: l' => y <- f x ;; ys <- map_raise f l' ;; Some (y :: ys)
  end.

(* ================================================================= *)
(** ** The request handlers

    [uuid.uuid4()] and [datetime.now(timezone.utc)] are read from the
    environment: each handler takes the identifiers and instants its
    [default_factory] calls return.  A handler returns its response and the
    store it leaves. *)

(** [result.dict()] with [result_dict['timestamp']] replaced by its
    [isoformat()]. *)
Definition evaporation_doc (result : EvaporationResult.t) : EvaporationDoc.t :=
  EvaporationDoc.mk (EvaporationResult.id result)
    (EvaporationResult.evaporation_rate result)
    (EvaporationResult.weather_input result)
    (EvaporationResult.penman_components result)
    (BsonString (isoformat (EvaporationResult.timestamp result))).

Definition calculate_evaporation (new_id : string) (now : datetime.t)
    (db : Db.t) (weather_input : WeatherInput.t)
    : option (EvaporationResult.t * Db.t) :=
  rc <- calculate_penman_evaporation
          (WeatherInput.temperature weather_input)
          (WeatherInput.humidity weather_input)
          (WeatherInput.wind_speed weather_input)
          (WeatherInput.solar_radiation weather_input) ;;
  let '(evaporation_rate, components) := rc in
  let result :=
    EvaporationResult.mk new_id (py_round evaporation_rate 3) weather_input
      components now in
  let result_dict := evaporation_doc result in
  Some (result,
        Db.mk (insert_one (Db.evaporation_results db) result_dict)
          (Db.storage_planning_results db) (Db.status_checks db)).

(** [storage_result.dict()] with both timestamps replaced by their
    [isoformat()]. *)
Definition storage_planning_doc (r : StoragePlanningResult.t)
    : StoragePlanningDoc.t :=
  StoragePlanningDoc.mk (StoragePlanningResult.id r)
    (StoragePlanningResult.reservoir_capacity_needed r)
    (StoragePlanningResult.seasonal_analysis r)
    (StoragePlanningResult.irrigation_recommendations r)
    (StoragePlanningResult.water_balance r)
    (evaporation_doc (StoragePlanningResult.evaporation_data r))
    (BsonString (isoformat (StoragePlanningResult.timestamp r))).

(** The query parameter [surface_area: Optional[float] = 1000]: [None] is a
    request that leaves it out. *)
Definition surface_area_default : R := 1000.

Definition calculate_storage_planning_endpoint
    (evaporation_id : string) (evaporation_now : datetime.t)
    (storage_id : string) (storage_now : datetime.t)
    (db : Db.t) (weather_input : WeatherInput.t) (surface_area : option R)
    : option (StoragePlanningResult.t * Db.t) :=
  let surface_area :=
    match surface_area with
    | Some a => a
    | None => surface_area_default
    end in
  rc <- calculate_penman_evaporation
          (WeatherInput.temperature weather_input)
          (WeatherInput.humidity weather_input)
          (WeatherInput.wind_speed weather_input)
          (WeatherInput.solar_radiation weather_input) ;;
  let '(evaporation_rate, components) := rc in
  let evaporation_result :=
    EvaporationResult.mk evaporation_id (py_round evaporation_rate 3)
      weather_input components evaporation_now in
  planning_data <- calculate_storage_planning evaporation_result surface_area ;;
  let storage_result :=
    StoragePlanningResult.mk storage_id
      (PlanningData.reservoir_capacity_needed planning_data)
      (PlanningData.seasonal_analysis planning_data)
      (PlanningData.irrigation_recommendations planning_data)
      (PlanningData.water_balance planning_data)
      evaporation_result storage_now in
  let result_dict := storage_planning_doc storage_result in
  Some (storage_result,
        Db.mk (Db.evaporation_results db)
          (insert_one (Db.storage_planning_results db) result_dict)
          (Db.status_checks db)).

(** [if isinstance(result.get('timestamp'), str): result['timestamp'] =
    datetime.fromisoformat(result['timestamp'])]. *)
Definition parse_timestamp (ts : bson_ts) : option datetime.t :=
  match ts with
  | BsonString s => fromisoformat s
  | BsonDate d => Some d
  end.

(** The model rebuilt from the keys of [result], after its timestamp was
    parsed. *)
Definition evaporation_of_doc (doc : EvaporationDoc.t)
    : option EvaporationResult.t :=
  ts <- parse_timestamp (EvaporationDoc.timestamp doc) ;;
  Some (EvaporationResult.mk (EvaporationDoc.id doc)
          (EvaporationDoc.evaporation_rate doc)
          (EvaporationDoc.weather_input doc)
          (EvaporationDoc.penman_components doc) ts).

Definition get_evaporation_history (db : Db.t)
    : option (list EvaporationResult.t) :=
  let results :=
    firstn 50 (sort_desc EvaporationDoc.timestamp (Db.evaporation_results db)) in
  map_raise evaporation_of_doc results.

Definition storage_planning_of_doc (doc : StoragePlanningDoc.t)
    : option StoragePlanningResult.t :=
  ts <- parse_timestamp (StoragePlanningDoc.timestamp doc) ;;
  ev <- evaporation_of_doc (StoragePlanningDoc.evaporation_data doc) ;;
  Some (StoragePlanningResult.mk (StoragePlanningDoc.id doc)
          (StoragePlanningDoc.reservoir_capacity_needed doc)
          (StoragePlanningDoc.seasonal_analysis doc)
          (StoragePlanningDoc.irrigation_recommendations doc)
          (StoragePlanningDoc.water_balance doc) ev ts).

Definition get_storage_planning_history (db : Db.t)
    : option (list StoragePlanningResult.t) :=
  let results :=
    firstn 50
      (sort_desc StoragePlanningDoc.timestamp (Db.storage_planning_results db)) in
  map_raise storage_planning_of_doc results.

Definition create_status_check (new_id : string) (now : datetime.t)
    (db : Db.t) (input : StatusCheckCreate.t) : StatusCheck.t * Db.t :=
  let status_obj := StatusCheck.mk new_id (StatusCheckCreate.client_name input) now in
  let status_obj_dict :=
    StatusDoc.mk (StatusCheck.id status_obj) (StatusCheck.client_name status_obj)
      (BsonString (isoformat (StatusCheck.timestamp status_obj))) in
  (status_obj,
   Db.mk (Db.evaporation_results db) (Db.storage_planning_results db)
     (insert_one (Db.status_checks db) status_obj_dict)).

Definition status_check_of_doc (doc : StatusDoc.t) : option StatusCheck.t :=
  ts <- parse_timestamp (StatusDoc.timestamp doc) ;;
  Some (StatusCheck.mk (StatusDoc.id doc) (StatusDoc.client_name doc) ts).

(** [db.status_checks.find().to_list(1000)]: no sort. *)
Definition get_status_checks (db : Db.t) : option (list StatusCheck.t) :=
  let status_checks := firstn 1000 (Db.status_checks db) in
  map_raise status_check_of_doc status_checks.


(* ================================================================= *)
(** ** Well-formed stores and the runs of the service *)

(** [a] is at least as recent as [b]. *)
Definition newer_or_equal (a b : datetime.t) : Prop := dt_compare a b <> Lt.

(** A list of instants from the newest to the oldest. *)
Definition newest_first (ts : list datetime.t) : Prop :=
  StronglySorted newer_or_equal ts.

(** The order [.sort("timestamp", -1)] leaves between two keys. *)
Definition bson_ge (a b : bson_ts) : Prop := bson_compare a b <> Lt.

(** What the handlers write under ["timestamp"]: the [isoformat] string of a
    valid datetime. *)
Definition stored_timestamp (ts : bson_ts) : Prop :=
  exists d, valid_datetime d = true /\ ts = BsonString (isoformat d).

Definition db_wf (db : Db.t) : Prop :=
  Forall (fun doc => stored_timestamp (EvaporationDoc.timestamp doc))
    (Db.evaporation_results db)
  /\ Forall (fun doc =>
       stored_timestamp (StoragePlanningDoc.timestamp doc)
       /\ stored_timestamp
            (EvaporationDoc.timestamp (StoragePlanningDoc.evaporation_data doc)))
       (Db.storage_planning_results db)
  /\ Forall (fun doc => stored_timestamp (StatusDoc.timestamp doc))
       (Db.status_checks db).

(** One request that writes; the clock hands out valid datetimes. *)
Inductive step : Db.t -> Db.t -> Prop :=
  | step_calculate_evaporation new_id now db weather_input result db' :
      valid_datetime now = true ->
      calculate_evaporation new_id now db weather_input = Some (result, db') ->
      step db db'
  | step_calculate_storage_planning id1 now1 id2 now2 db weather_input
      surface_area result db' :
      valid_datetime now1 = true -> valid_datetime now2 = true ->
      calculate_storage_planning_endpoint id1 now1 id2 now2 db weather_input
        surface_area = Some (result, db') ->
      step db db'
  | step_create_status_check new_id now db input :
      valid_datetime now = true ->
      step db (snd (create_status_check new_id now db input)).

(** The stores the service can be in, starting from the empty one. *)
Inductive reachable : Db.t -> Prop :=
  | reachable_empty : reachable Db.empty
  | reachable_step db db' : reachable db -> step db db' -> reachable db'.

(** [page] is the answer of a history read of [store] with the given limit:
    it has [min limit (size of the store)] records, newest first; they are the
    parsed forms of documents [shown] of the store, and no document left out
    ([older]) is newer than a listed one. *)
Definition recent_page {D R : Type} (of_doc : D -> option R)
    (ts : R -> datetime.t) (limit : nat) (store : list D) (page : list R)
    : Prop :=
  List.length page = Nat.min limit (List.length store)
  /\ newest_first (map ts page)
  /\ exists shown older,
       Permutation (shown ++ older) store
       /\ Forall2 (fun d r => of_doc d = Some r) shown page
       /\ forall r o ro, In r page -> In o older -> of_doc o = Some ro ->
            newer_or_equal (ts r) (ts ro).

(** A document the handlers wrote: it parses, and its sort key is the stored
    string of the parsed timestamp. *)
Definition doc_ok {D R : Type} (key : D -> bson_ts) (of_doc : D -> option R)
    (ts : R -> datetime.t) (doc : D) : Prop :=
  exists r, of_doc doc = Some r
            /\ valid_datetime (ts r) = true
            /\ key doc = BsonString (isoformat (ts r)).

(* ================================================================= *)
(** ** Sample data for the scenarios *)

Definition sample_weather : WeatherInput.t :=
  WeatherInput.mk 25 60 2 20 (Some "Pune"%string).

Definition sample_instant : datetime.t := datetime.mk 2024 5 17 9 30 0 0.
Definition later_instant : datetime.t := datetime.mk 2024 5 17 9 30 0 250000.

(** [n] evaporation requests in a row, starting from [db]. *)
Fixpoint repeat_calculate_evaporation (n : nat) (db : Db.t) : Db.t :=
  match n with
  | O => db
  | S k =>
      let db_k := repeat_calculate_evaporation k db in
      match calculate_evaporation "sample-id" sample_instant db_k sample_weather with
      | Some (_, db') => db'
      | None => db_k
      end
  end.

(** One status ping. *)
Definition one_ping : Db.t :=
  snd (create_status_check "ping-1" sample_instant Db.empty
         (StatusCheckCreate.mk "client")).

(** Two status pings, the second one later than the first. *)
Definition two_pings : Db.t :=
  let db1 :=
    snd (create_status_check "ping-1" sample_instant Db.empty
           (StatusCheckCreate.mk "client")) in
  snd (create_status_check "ping-2" later_instant db1
         (StatusCheckCreate.mk "client")).

(** Any number of writing requests in a row. *)
Inductive run : Db.t -> Db.t -> Prop :=
  | run_refl db : run db db
  | run_step db db' db'' : run db db' -> step db' db'' -> run db db''.



(* ================================================================= *)
(** * Properties *)

(** ** Division and rounding *)

Lemma py_truediv_some (a b : R) : b <> 0 -> py_truediv a b = Some (a / b).
Proof.
  intros Hb. unfold py_truediv. destruct (Req_dec_T b 0); [contradiction | reflexivity].
Qed.

Lemma py_truediv_zero (a : R) : py_truediv a 0 = None.
Proof.
  unfold py_truediv. destruct (Req_dec_T 0 0) as [_ | H]; [reflexivity | now elim H].
Qed.

Lemma py_truediv_none_iff (a b : R) : py_truediv a b = None <-> b = 0.
Proof.
  unfold py_truediv. destruct (Req_dec_T b 0); split; congruence.
Qed.

(** The integer [round_half_even] picks is within one half of its argument. *)
Lemma round_half_even_bound (y : R) :
  IZR (round_half_even y) - 1 / 2 <= y <= IZR (round_half_even y) + 1 / 2.
Proof.
  unfold round_half_even.
  pose proof (Zfloor_bound y) as [Hlo Hhi].
  destruct (Rlt_dec (y - IZR (Zfloor y)) (1 / 2)) as [H1 | H1].
  - lra.
  - destruct (Rlt_dec (1 / 2) (y - IZR (Zfloor y))) as [H2 | H2].
    + rewrite plus_IZR. lra.
    + destruct (Z.even (Zfloor y)); [| rewrite plus_IZR]; lra.
Qed.

(** Strictly inside the half-open window around an integer, that integer is
    the result. *)
Lemma round_half_even_near (y : R) (n : Z) :
  IZR n - 1 / 2 < y < IZR n + 1 / 2 -> round_half_even y = n.
Proof.
  intros [Hlo Hhi].
  pose proof (round_half_even_bound y) as [Blo Bhi].
  set (m := round_half_even y) in *.
  assert (Hlt1 : IZR m < IZR n + 1) by lra.
  assert (Hlt2 : IZR n < IZR m + 1) by lra.
  rewrite <- plus_IZR in Hlt1, Hlt2.
  apply lt_IZR in Hlt1. apply lt_IZR in Hlt2. lia.
Qed.

Lemma round_half_even_IZR (z : Z) : round_half_even (IZR z) = z.
Proof. apply round_half_even_near. lra. Qed.

Lemma round_half_even_nonneg (y : R) : 0 <= y -> (0 <= round_half_even y)%Z.
Proof.
  intros Hy. pose proof (round_half_even_bound y) as [_ Bhi].
  destruct (Z_lt_le_dec (round_half_even y) 0) as [Hneg | Hpos]; [| exact Hpos].
  assert (H : (round_half_even y <= -1)%Z) by lia.
  apply IZR_le in H. lra.
Qed.

Lemma Rabs_bound (a b : R) : Rabs a <= b -> - b <= a <= b.
Proof. unfold Rabs. destruct (Rcase_abs a); lra. Qed.

Lemma pow10_pos (n : nat) : 0 < 10 ^ n.
Proof. apply pow_lt. lra. Qed.

(** [round(x, n)] moves [x] by at most half a unit of the last kept place. *)
Lemma py_round_error (x : R) (n : nat) :
  Rabs (py_round x n - x) <= / 2 / 10 ^ n.
Proof.
  unfold py_round. pose proof (pow10_pos n) as Hp.
  pose proof (round_half_even_bound (x * 10 ^ n)) as [Blo Bhi].
  set (m := IZR (round_half_even (x * 10 ^ n))) in *.
  replace (m / 10 ^ n - x) with ((m - x * 10 ^ n) / 10 ^ n) by (field; lra).
  unfold Rdiv at 1. rewrite Rabs_mult, (Rabs_pos_eq (/ 10 ^ n)).
  - apply Rmult_le_compat_r.
    + left. now apply Rinv_0_lt_compat.
    + apply Rabs_le. lra.
  - left. now apply Rinv_0_lt_compat.
Qed.

Lemma py_round_nonneg (x : R) (n : nat) : 0 <= x -> 0 <= py_round x n.
Proof.
  intros Hx. unfold py_round. pose proof (pow10_pos n) as Hp.
  apply Rmult_le_pos.
  - apply IZR_le. apply round_half_even_nonneg. apply Rmult_le_pos; lra.
  - left. now apply Rinv_0_lt_compat.
Qed.

(** A value that already has [n] decimals is left alone. *)
Lemma py_round_exact (z : Z) (n : nat) :
  py_round (IZR z / 10 ^ n) n = IZR z / 10 ^ n.
Proof.
  unfold py_round. pose proof (pow10_pos n) as Hp.
  replace (IZR z / 10 ^ n * 10 ^ n) with (IZR z) by (field; lra).
  now rewrite round_half_even_IZR.
Qed.


(** [round(x, n)] equals a decimal [c] as soon as [x] lies strictly within
    half a unit of the last place of [c]. *)
Lemma py_round_near (x : R) (n : nat) (z : Z) :
  IZR z - 1 / 2 < x * 10 ^ n < IZR z + 1 / 2 ->
  py_round x n = IZR z / 10 ^ n.
Proof.
  intros H. unfold py_round. now rewrite (round_half_even_near _ z H).
Qed.


(** ** The evaporation model *)

Section PenmanFacts.
Import PenmanSpec.

Lemma sq_pos (x : R) : x <> 0 -> 0 < x ^ 2.
Proof. intros Hx. rewrite <- Rsqr_pow2. now apply Rsqr_pos_lt. Qed.

Lemma es_pos (T : R) : 0 < es T.
Proof. unfold es. pose proof (exp_pos (17.27 * T / (T + 237.3))). lra. Qed.

Lemma delta_pos (T : R) : T + 237.3 <> 0 -> 0 < delta T.
Proof.
  intros HT. unfold delta. pose proof (es_pos T) as He.
  apply Rdiv_lt_0_compat; [lra | now apply sq_pos].
Qed.

Lemma math_exp_some (x : R) :
  x <= exp_overflow_threshold -> math_exp x = Some (exp x).
Proof.
  intros Hx. unfold math_exp.
  destruct (Rlt_dec exp_overflow_threshold x); [lra | reflexivity].
Qed.

Lemma math_exp_none_iff (x : R) :
  math_exp x = None <-> exp_overflow_threshold < x.
Proof.
  unfold math_exp. destruct (Rlt_dec exp_overflow_threshold x);
    split; intros; try discriminate; tauto.
Qed.

Lemma Rabs_sq (x : R) : Rabs (x ^ 2) = x ^ 2.
Proof. apply Rabs_pos_eq, pow2_ge_0. Qed.

Lemma py_pow2_some (x : R) :
  x ^ 2 <= float_max -> py_pow x 2 = Some (x ^ 2).
Proof.
  intros Hx. unfold py_pow. rewrite Rabs_sq.
  destruct (Rlt_dec float_max (x ^ 2)); [lra | reflexivity].
Qed.

Lemma py_pow2_none_iff (x : R) : py_pow x 2 = None <-> float_max < x ^ 2.
Proof.
  unfold py_pow. rewrite Rabs_sq. destruct (Rlt_dec float_max (x ^ 2));
    split; intros; try discriminate; tauto.
Qed.

(** Where nothing raises the function returns the specification's
    formulas. *)
Lemma penman_returns (T h w s : R) :
  penman_defined T ->
  calculate_penman_evaporation T h w s
  = Some (Rmax 0 (raw T h w s), components T h w s).
Proof.
  intros (HT & Hq & Hsq').
  pose proof (delta_pos T HT) as Hd. pose proof (sq_pos _ HT) as Hsq.
  unfold calculate_penman_evaporation.
  rewrite (py_truediv_some _ _ HT). cbn [bind].
  rewrite (math_exp_some _ Hq). cbn [bind].
  rewrite (py_truediv_some h 100.0) by lra. cbn [bind].
  rewrite (py_pow2_some _ Hsq'). cbn [bind].
  rewrite (py_truediv_some _ ((T + 237.3) ^ 2)) by lra. cbn [bind].
  rewrite (py_truediv_some s 2.45) by lra. cbn [bind].
  fold (es T). fold (delta T).
  rewrite !(py_truediv_some _ (delta T + 0.665)) by lra. cbn [bind].
  unfold raw, components, radiation_component, aerodynamic_component,
    round3, rn, fu, ea, psychro.
  replace (h / 100.0) with (h / 100) by lra.
  replace (es T * (h / 100)) with (es T * h / 100) by lra.
  reflexivity.
Qed.

Lemma penman_pole (h w s : R) :
  calculate_penman_evaporation (-237.3) h w s = None.
Proof.
  unfold calculate_penman_evaporation.
  replace (-237.3 + 237.3) with 0 by lra.
  now rewrite py_truediv_zero.
Qed.

(** The function raises exactly at the pole (division by zero), where
    [math.exp] overflows, and where [**] overflows. *)
Lemma penman_raises_iff (T h w s : R) :
  calculate_penman_evaporation T h w s = None
  <-> T = -237.3
      \/ (T <> -237.3 /\ exp_overflow_threshold < 17.27 * T / (T + 237.3))
      \/ (T <> -237.3 /\ float_max < (T + 237.3) ^ 2).
Proof.
  split.
  - intros Hnone.
    destruct (Req_dec_T (T + 237.3) 0) as [H0 | HT]; [left; lra |].
    assert (Hne : T <> -237.3) by lra.
    destruct (Rlt_dec exp_overflow_threshold (17.27 * T / (T + 237.3)))
      as [Hq | Hq]; [right; left; now split |].
    destruct (Rlt_dec float_max ((T + 237.3) ^ 2)) as [Hs | Hs];
      [right; right; now split |].
    rewrite penman_returns in Hnone; [discriminate |].
    repeat split; [exact HT | lra | lra].
  - intros [-> | [[Hne Hq] | [Hne Hs]]]; [apply penman_pole | |];
      assert (HT : T + 237.3 <> 0) by lra;
      unfold calculate_penman_evaporation;
      rewrite (py_truediv_some _ _ HT); cbn [bind].
    + apply math_exp_none_iff in Hq. now rewrite Hq.
    + destruct (math_exp (17.27 * T / (T + 237.3))); cbn [bind]; [| reflexivity].
      rewrite (py_truediv_some h 100.0) by lra. cbn [bind].
      apply py_pow2_none_iff in Hs. now rewrite Hs.
Qed.

(** Whenever the function returns, it returns the specification's
    formulas. *)
Lemma penman_returns_inv (T h w s rate : R) (comps : dict R) :
  calculate_penman_evaporation T h w s = Some (rate, comps) ->
  penman_defined T /\ rate = Rmax 0 (raw T h w s) /\ comps = components T h w s.
Proof.
  intros Hc.
  assert (Hdef : penman_defined T).
  { destruct (Req_dec_T (T + 237.3) 0) as [H0 | HT].
    - replace T with (-237.3) in Hc by lra. rewrite penman_pole in Hc. discriminate.
    - assert (Hne : T <> -237.3) by lra.
      destruct (Rlt_dec exp_overflow_threshold (17.27 * T / (T + 237.3))) as [Hq | Hq].
      + rewrite (proj2 (penman_raises_iff T h w s)) in Hc; [discriminate |].
        right; left; now split.
      + destruct (Rlt_dec float_max ((T + 237.3) ^ 2)) as [Hs | Hs].
        * rewrite (proj2 (penman_raises_iff T h w s)) in Hc; [discriminate |].
          right; right; now split.
        * repeat split; [exact HT | lra | lra]. }
  rewrite (penman_returns T h w s Hdef) in Hc. injection Hc as <- <-. auto.
Qed.

(** Every temperature above the pole, up to 10^150, is one where nothing
    raises. *)
Lemma in_range_defined (T : R) : -237.3 < T <= 1e150 -> penman_defined T.
Proof.
  intros [Hlo Hhi]. assert (Hpos : 0 < T + 237.3) by lra.
  split; [lra |]. split.
  - unfold exp_overflow_threshold.
    replace (17.27 * T / (T + 237.3))
      with (17.27 - 17.27 * 237.3 / (T + 237.3)) by (field; lra).
    assert (0 < 17.27 * 237.3 / (T + 237.3)) by (apply Rdiv_lt_0_compat; lra).
    lra.
  - unfold float_max. nra.
Qed.

(** [math.exp] overflows exactly on the interval just below the pole. *)
Lemma exp_overflow_interval (T : R) :
  T <> -237.3 ->
  (exp_overflow_threshold < 17.27 * T / (T + 237.3)
   <-> exp_overflow_low < T < -237.3).
Proof.
  intros Hne. unfold exp_overflow_low, exp_overflow_threshold.
  replace (- (237.3 * 709.782712893383 / (709.782712893383 - 17.27)))
    with (- (237.3 * 709.782712893383) / 692.512712893383) by lra.
  assert (Hk : - (237.3 * 709.782712893383) / 692.512712893383 * 692.512712893383
               = - (237.3 * 709.782712893383)) by lra.
  set (lo := - (237.3 * 709.782712893383) / 692.512712893383) in *.
  destruct (Rlt_dec 0 (T + 237.3)) as [Hpos | Hneg].
  - split; [| lra]. intros Hq. exfalso.
    apply (Rmult_lt_compat_r (T + 237.3)) in Hq; [| exact Hpos].
    replace (17.27 * T / (T + 237.3) * (T + 237.3)) with (17.27 * T) in Hq
      by (field; lra).
    lra.
  - assert (Hn : T + 237.3 < 0) by lra.
    assert (Hopp : 0 < - (T + 237.3)) by lra.
    split.
    + intros Hq. split; [| lra].
      apply (Rmult_lt_compat_r (- (T + 237.3))) in Hq; [| exact Hopp].
      replace (17.27 * T / (T + 237.3) * - (T + 237.3)) with (- (17.27 * T)) in Hq
        by (field; lra).
      lra.
    + intros [Hlo _].
      apply (Rmult_lt_reg_r (- (T + 237.3))); [exact Hopp |].
      replace (17.27 * T / (T + 237.3) * - (T + 237.3)) with (- (17.27 * T))
        by (field; lra).
      lra.
Qed.

(** The same, with the temperatures of the [math.exp] overflow spelled out. *)
Lemma penman_raises_on (T h w s : R) :
  calculate_penman_evaporation T h w s = None
  <-> T = -237.3
      \/ exp_overflow_low < T < -237.3
      \/ float_max < (T + 237.3) ^ 2.
Proof.
  rewrite penman_raises_iff. split.
  - intros [H | [[Hne Hq] | [Hne Hs]]]; [now left | | now right; right].
    right; left. now apply exp_overflow_interval.
  - intros [H | [Hq | Hs]]; [now left | |].
    + right; left. assert (Hne : T <> -237.3) by lra.
      split; [exact Hne | now apply exp_overflow_interval].
    + destruct (Req_dec_T T (-237.3)) as [-> | Hne]; [now left |].
      right; right. now split.
Qed.


Lemma weight_pos (T : R) : T + 237.3 <> 0 -> 0 < psychro / (delta T + psychro).
Proof.
  intros HT. pose proof (delta_pos T HT) as Hd. unfold psychro.
  apply Rdiv_lt_0_compat; lra.
Qed.

End PenmanFacts.

(** *** Claims on the evaporation model *)

(** Just below the pole [math.exp] overflows. *)
Lemma penman_overflow_below_pole (h w s : R) :
  calculate_penman_evaporation (-240) h w s = None.
Proof.
  apply penman_raises_iff. right; left. split; [lra |].
  unfold exp_overflow_threshold. lra.
Qed.




(** C3: whenever the model returns a rate, at whatever temperature, the rate
    is at least 0, and exactly 0 when the raw sum is negative; the rate the
    handler records (rounded to 3 decimals) is at least 0 too; and for every
    temperature above -237.3 (up to 10^150) both do return. *)
Theorem C3_rate_nonneg (T h w s : R) :
  (forall rate comps,
     calculate_penman_evaporation T h w s = Some (rate, comps) ->
     0 <= rate /\ (PenmanSpec.raw T h w s < 0 -> rate = 0))
  /\ (forall new_id now db loc result db',
        calculate_evaporation new_id now db (WeatherInput.mk T h w s loc)
        = Some (result, db') ->
        0 <= EvaporationResult.evaporation_rate result)
  /\ (-237.3 < T <= 1e150 ->
      (exists rate comps, calculate_penman_evaporation T h w s = Some (rate, comps))
      /\ forall new_id now db loc,
           exists result db',
             calculate_evaporation new_id now db (WeatherInput.mk T h w s loc)
             = Some (result, db')).
Proof.
  split; [| split].
  - intros rate comps Hc.
    destruct (penman_returns_inv _ _ _ _ _ _ Hc) as (_ & -> & _).
    split; [apply Rmax_l | intros Hneg; apply Rmax_left; lra].
  - intros new_id now db loc result db'. unfold calculate_evaporation.
    cbn [WeatherInput.temperature WeatherInput.humidity WeatherInput.wind_speed
         WeatherInput.solar_radiation].
    destruct (calculate_penman_evaporation T h w s) as [[rate comps] |] eqn:Hc;
      cbn [bind]; [| discriminate].
    intros [= <- _]. cbn [EvaporationResult.evaporation_rate].
    destruct (penman_returns_inv _ _ _ _ _ _ Hc) as (_ & -> & _).
    apply py_round_nonneg, Rmax_l.
  - intros HT. pose proof (penman_returns T h w s (in_range_defined T HT)) as Hr.
    split; [do 2 eexists; exact Hr |].
    intros new_id now db loc. unfold calculate_evaporation.
    cbn [WeatherInput.temperature WeatherInput.humidity WeatherInput.wind_speed
         WeatherInput.solar_radiation].
    rewrite Hr. cbn [bind]. do 2 eexists. reflexivity.
Qed.

(** An input whose raw sum is negative: humidity 200 at 0 degrees, no wind,
    no sun. *)
Lemma raw_negative_example : PenmanSpec.raw 0 200 0 0 < 0.
Proof.
  assert (HT : 0 + 237.3 <> 0) by lra.
  pose proof (weight_pos 0 HT) as Hw.
  unfold PenmanSpec.raw, PenmanSpec.radiation_component,
    PenmanSpec.aerodynamic_component, PenmanSpec.rn, PenmanSpec.fu, PenmanSpec.ea.
  assert (He : PenmanSpec.es 0 = 0.6108).
  { unfold PenmanSpec.es. replace (17.27 * 0 / (0 + 237.3)) with 0 by lra.
    rewrite exp_0. lra. }
  rewrite He.
  set (c := PenmanSpec.psychro / (PenmanSpec.delta 0 + PenmanSpec.psychro)) in *.
  set (d := PenmanSpec.delta 0 / (PenmanSpec.delta 0 + PenmanSpec.psychro)).
  nra.
Qed.

Lemma C3_rate_nonneg_witness :
  exists rate comps,
    calculate_penman_evaporation 0 200 0 0 = Some (rate, comps)
    /\ 0 <= rate /\ rate = 0.
Proof.
  destruct (C3_rate_nonneg 0 200 0 0) as (Hnonneg & _ & Hret).
  destruct Hret as [(rate & comps & Hc) _]; [lra |].
  exists rate, comps. split; [exact Hc |].
  destruct (Hnonneg rate comps Hc) as [Hr Hz].
  split; [exact Hr | apply Hz; exact raw_negative_example].
Defined.

(** C7, as stated, fails: the pole is not the only input with an error. At
    -240, which is not -237.3, the function raises as well ([math.exp]
    overflows). *)
Lemma C7_overflow_counterexample :
  -240 <> -237.3 /\ calculate_penman_evaporation (-240) 50 1 10 = None.
Proof. split; [lra | apply penman_overflow_below_pole]. Qed.

(** C7, amended: a zero divisor arises exactly at [temperature = -237.3], and
    that case is not guarded; at every other temperature every divisor of the
    computation is nonzero.  Besides that division by zero the function
    raises [OverflowError] in two places and nowhere else: from [math.exp]
    for the temperatures between about -243.2178 and -237.3, and from [**]
    where [(temperature + 237.3)^2] leaves the float range; at every other
    temperature it returns, whatever the humidity, wind speed and solar
    radiation. *)
Theorem C7_only_pole (T h w s : R) :
  (calculate_penman_evaporation T h w s = None
   <-> T = -237.3
       \/ exp_overflow_low < T < -237.3
       \/ float_max < (T + 237.3) ^ 2)
  /\ (py_truediv (17.27 * T) (T + 237.3) = None <-> T = -237.3)
  /\ (T <> -237.3 ->
      T + 237.3 <> 0 /\ 100.0 <> 0 /\ (T + 237.3) ^ 2 <> 0 /\ 2.45 <> 0
      /\ PenmanSpec.delta T + 0.665 <> 0).
Proof.
  split; [| split].
  - apply penman_raises_on.
  - rewrite py_truediv_none_iff. split; lra.
  - intros Hne. assert (HT : T + 237.3 <> 0) by lra.
    pose proof (delta_pos T HT) as Hd. pose proof (sq_pos _ HT) as Hsq.
    repeat split; lra.
Qed.

Lemma C7_only_pole_witness :
  25 + 237.3 <> 0 /\ PenmanSpec.delta 25 + 0.665 <> 0.
Proof.
  destruct (C7_only_pole 25 60 2 20) as (_ & _ & Hdiv).
  destruct Hdiv as (H1 & _ & _ & _ & H5); [lra |].
  split; [exact H1 | exact H5].
Defined.




(** ** An enclosure of [exp] by repeated squaring *)

Section ExpEnclosure.
Lemma fx_scale_pos : 0 < IZR fx_scale.
Proof. apply IZR_lt. reflexivity. Qed.

Lemma sq_down_nonneg (a : Z) : (0 <= sq_down a)%Z.
Proof. unfold sq_down, fx_scale. apply Z.div_pos; nia. Qed.

Lemma sq_up_nonneg (a : Z) : (0 <= sq_up a)%Z.
Proof. unfold sq_up, fx_scale. apply Z.div_pos; nia. Qed.

Lemma sq_down_le (a : Z) : IZR (sq_down a) * IZR fx_scale <= IZR a * IZR a.
Proof.
  rewrite <- !mult_IZR. apply IZR_le. unfold sq_down.
  rewrite Z.mul_comm. apply Z.mul_div_le. reflexivity.
Qed.

Lemma sq_up_ge (a : Z) : IZR a * IZR a <= IZR (sq_up a) * IZR fx_scale.
Proof.
  rewrite <- !mult_IZR. apply IZR_le. unfold sq_up.
  assert (Hs : (0 < fx_scale)%Z) by reflexivity.
  pose proof (Z.div_mod (a * a + fx_scale - 1) fx_scale ltac:(lia)) as Hdm.
  pose proof (Z.mod_pos_bound (a * a + fx_scale - 1) fx_scale Hs) as Hm.
  lia.
Qed.

Lemma exp_double (y : R) : exp (2 * y) = exp y * exp y.
Proof. replace (2 * y) with (y + y) by lra. apply exp_plus. Qed.

Lemma scaled_sq_le (sc a q e : R) :
  0 < sc -> q * sc <= a * a -> 0 <= a -> a / sc <= e -> q / sc <= e * e.
Proof.
  intros Hs Hq Ha Hle.
  assert (H0 : 0 <= a / sc)
    by (apply Rmult_le_pos; [lra | left; now apply Rinv_0_lt_compat]).
  apply Rle_trans with (a / sc * (a / sc)).
  - apply Rmult_le_reg_r with (sc * sc); [nra |].
    replace (a / sc * (a / sc) * (sc * sc)) with (a * a) by (field; lra).
    replace (q / sc * (sc * sc)) with (q * sc) by (field; lra).
    exact Hq.
  - apply Rmult_le_compat; lra.
Qed.

Lemma scaled_sq_ge (sc a q e : R) :
  0 < sc -> a * a <= q * sc -> 0 < e -> e <= a / sc -> e * e <= q / sc.
Proof.
  intros Hs Hq He Hle.
  apply Rle_trans with (a / sc * (a / sc)).
  - apply Rmult_le_compat; lra.
  - apply Rmult_le_reg_r with (sc * sc); [nra |].
    replace (a / sc * (a / sc) * (sc * sc)) with (a * a) by (field; lra).
    replace (q / sc * (sc * sc)) with (q * sc) by (field; lra).
    exact Hq.
Qed.

Lemma sq_down_sound (a : Z) (y : R) :
  (0 <= a)%Z -> IZR a / IZR fx_scale <= exp y -> IZR (sq_down a) / IZR fx_scale <= exp (2 * y).
Proof.
  intros Ha Hle. rewrite exp_double.
  apply scaled_sq_le with (a := IZR a);
    [exact fx_scale_pos | apply sq_down_le | now apply IZR_le | exact Hle].
Qed.

Lemma sq_up_sound (a : Z) (y : R) :
  exp y <= IZR a / IZR fx_scale -> exp (2 * y) <= IZR (sq_up a) / IZR fx_scale.
Proof.
  intros Hle. rewrite exp_double.
  apply scaled_sq_ge with (a := IZR a);
    [exact fx_scale_pos | apply sq_up_ge | apply exp_pos | exact Hle].
Qed.

Lemma iter_sq_down_sound (k : nat) : forall (a : Z) (y : R),
  (0 <= a)%Z -> IZR a / IZR fx_scale <= exp y ->
  IZR (iter_sq sq_down k a) / IZR fx_scale <= exp (2 ^ k * y).
Proof.
  induction k as [| k IH]; intros a y Ha Hle.
  - cbn [iter_sq pow]. now rewrite Rmult_1_l.
  - cbn [iter_sq]. replace (2 ^ Datatypes.S k * y) with (2 ^ k * (2 * y)) by (cbn [pow]; ring).
    apply IH; [apply sq_down_nonneg | now apply sq_down_sound].
Qed.

Lemma iter_sq_up_sound (k : nat) : forall (a : Z) (y : R),
  exp y <= IZR a / IZR fx_scale -> exp (2 ^ k * y) <= IZR (iter_sq sq_up k a) / IZR fx_scale.
Proof.
  induction k as [| k IH]; intros a y Hle.
  - cbn [iter_sq pow]. now rewrite Rmult_1_l.
  - cbn [iter_sq]. replace (2 ^ Datatypes.S k * y) with (2 ^ k * (2 * y)) by (cbn [pow]; ring).
    apply IH. now apply sq_up_sound.
Qed.

(** [1 + y <= exp y <= 1 / (1 - y)] for [y < 1]. *)
Lemma exp_upper_small (y : R) : y < 1 -> exp y <= / (1 - y).
Proof.
  intros Hy. pose proof (exp_ineq1_le (- y)) as H. pose proof (exp_pos (- y)) as Hp.
  rewrite <- (Ropp_involutive y) at 1. rewrite (exp_Ropp (- y)).
  apply Rinv_le_contravar; lra.
Qed.
End ExpEnclosure.

(** The exponent of the scenario [T = 25]: [exp (17.27 * 25 / (25 + 237.3))]
    lies between 5.18626 and 5.18629. *)
Lemma exp_scenario_bounds :
  5.18626 < exp (17.27 * 25 / (25 + 237.3)) < 5.18629.
Proof.
  set (y := 17.27 * 25 / (25 + 237.3) / 1048576).
  assert (E20 : 2 ^ 20 = 1048576) by (simpl; lra).
  replace (17.27 * 25 / (25 + 237.3)) with (2 ^ 20 * y)
    by (rewrite E20; unfold y; lra).
  assert (Hy : 0 < y < 1 / 100000) by (unfold y; lra).
  split.
  - pose proof (iter_sq_down_sound 20 1000001569763195 y ltac:(lia)) as Hlo.
    assert (E : iter_sq sq_down 20 1000001569763195 = 5186269847520020%Z)
      by (vm_compute; reflexivity).
    rewrite E in Hlo.
    replace fx_scale with 1000000000000000%Z in Hlo by reflexivity.
    apply Rlt_le_trans with (5186269847520020 / 1000000000000000); [lra |].
    apply Hlo. apply Rle_trans with (1 + y); [unfold y; lra | apply exp_ineq1_le].
  - pose proof (iter_sq_up_sound 20 1000001569765660 y) as Hhi.
    assert (E : iter_sq sq_up 20 1000001569765660 = 5186283258033902%Z)
      by (vm_compute; reflexivity).
    rewrite E in Hhi.
    replace fx_scale with 1000000000000000%Z in Hhi by reflexivity.
    apply Rle_lt_trans with (5186283258033902 / 1000000000000000); [| lra].
    apply Hhi. apply Rle_trans with (/ (1 - y)); [apply exp_upper_small; lra |].
    apply Rmult_le_reg_r with (1 - y); [lra |].
    rewrite Rinv_l by lra. unfold y. lra.
Qed.

(** *** The scenario T = 25, humidity = 60, wind = 2, solar = 20 *)

Lemma py_round3_eq (x c : R) (z : Z) :
  c = IZR z / 1000 ->
  IZR z - 1 / 2 < x * 1000 < IZR z + 1 / 2 ->
  py_round x 3 = c.
Proof.
  intros -> H. assert (E : 10 ^ 3 = 1000) by (simpl; lra).
  rewrite (py_round_near x 3 z); rewrite E; [reflexivity | exact H].
Qed.

Lemma div_window (a b lo hi : R) :
  0 < b -> lo * b < a -> a < hi * b -> lo < a / b < hi.
Proof.
  intros Hb Hlo Hhi. split.
  - apply Rmult_lt_reg_r with b; [exact Hb |].
    replace (a / b * b) with a by (field; lra). exact Hlo.
  - apply Rmult_lt_reg_r with b; [exact Hb |].
    replace (a / b * b) with a by (field; lra). exact Hhi.
Qed.

(** C6, as stated, fails on the wind function: at wind speed 2 the code's
    [2.6 * (1 + 0.54 * 2)] is 5.408, and that is what the returned mapping
    holds under ["wind_function"], not 3.208. *)
Lemma C6_wind_function_counterexample :
  (exists rate comps,
     calculate_penman_evaporation 25 60 2 20 = Some (rate, comps)
     /\ dict_get comps "wind_function" = Some 5.408)
  /\ ~ (exists rate comps,
          calculate_penman_evaporation 25 60 2 20 = Some (rate, comps)
          /\ dict_get comps "wind_function" = Some 3.208).
Proof.
  assert (HT : penman_defined 25) by (apply in_range_defined; lra).
  assert (Hw : py_round (PenmanSpec.fu 2) 3 = 5.408).
  { apply (py_round3_eq _ _ 5408); unfold PenmanSpec.fu; lra. }
  split.
  - eexists; eexists. split; [exact (penman_returns 25 60 2 20 HT) |].
    cbn. f_equal. exact Hw.
  - intros (rate & comps & Hc & Hg).
    rewrite (penman_returns 25 60 2 20 HT) in Hc. injection Hc as _ <-.
    cbn in Hg. unfold PenmanSpec.round3 in Hg. rewrite Hw in Hg.
    injection Hg as Hg. lra.
Qed.

(** C6, amended: at T = 25, humidity = 60, wind speed = 2, solar radiation =
    20 the model returns es = 3.168, ea = 1.901, delta = 0.189, rn = 8.163 and
    a wind function of 5.408 (all rounded to 3 decimals, together with
    radiation component 1.804, aerodynamic component 5.338 and vapor pressure
    deficit 1.267), and a rate strictly greater than 0, which rounds to
    7.142. *)
Theorem C6_scenario :
  exists rate,
    calculate_penman_evaporation 25 60 2 20
    = Some (rate,
            [ ("radiation_component"%string, 1.804);
              ("aerodynamic_component"%string, 5.338);
              ("saturation_vapor_pressure"%string, 3.168);
              ("actual_vapor_pressure"%string, 1.901);
              ("vapor_pressure_deficit"%string, 1.267);
              ("slope_vapor_pressure"%string, 0.189);
              ("wind_function"%string, 5.408);
              ("net_radiation_equivalent"%string, 8.163) ])
    /\ 0 < rate
    /\ py_round rate 3 = 7.142.
Proof.
  assert (HT : penman_defined 25) by (apply in_range_defined; lra).
  pose proof exp_scenario_bounds as HE.
  assert (Hes : PenmanSpec.es 25 = 0.6108 * exp (17.27 * 25 / (25 + 237.3)))
    by reflexivity.
  set (E := exp (17.27 * 25 / (25 + 237.3))) in *.
  assert (Hd : PenmanSpec.delta 25 = 4098 * (0.6108 * E) / 68801.29).
  { unfold PenmanSpec.delta. rewrite Hes.
    replace ((25 + 237.3) ^ 2) with 68801.29 by (simpl; lra). reflexivity. }
  assert (Hrad : 1.8035 < PenmanSpec.radiation_component 25 20 < 1.8045).
  { unfold PenmanSpec.radiation_component, PenmanSpec.rn, PenmanSpec.psychro.
    rewrite Hd.
    replace (4098 * (0.6108 * E) / 68801.29 / (4098 * (0.6108 * E) / 68801.29 + 0.665)
             * (20 / 2.45))
      with (4098 * (0.6108 * E) / 68801.29 * (20 / 2.45)
            / (4098 * (0.6108 * E) / 68801.29 + 0.665)) by (field; lra).
    apply div_window; lra. }
  assert (Haero : 5.3375 < PenmanSpec.aerodynamic_component 25 60 2 < 5.3385).
  { unfold PenmanSpec.aerodynamic_component, PenmanSpec.fu, PenmanSpec.ea,
      PenmanSpec.psychro.
    rewrite Hd, Hes.
    replace (0.665 / (4098 * (0.6108 * E) / 68801.29 + 0.665)
             * (2.6 * (1 + 0.54 * 2)) * (0.6108 * E - 0.6108 * E * 60 / 100))
      with (0.665 * (2.6 * (1 + 0.54 * 2)) * (0.6108 * E - 0.6108 * E * 60 / 100)
            / (4098 * (0.6108 * E) / 68801.29 + 0.665)) by (field; lra).
    apply div_window; lra. }
  assert (Hraw : 7.1415 < PenmanSpec.raw 25 60 2 20 < 7.1425).
  { unfold PenmanSpec.raw, PenmanSpec.radiation_component,
      PenmanSpec.aerodynamic_component, PenmanSpec.rn, PenmanSpec.fu,
      PenmanSpec.ea, PenmanSpec.psychro.
    rewrite Hd, Hes.
    replace (4098 * (0.6108 * E) / 68801.29 / (4098 * (0.6108 * E) / 68801.29 + 0.665)
             * (20 / 2.45)
             + 0.665 / (4098 * (0.6108 * E) / 68801.29 + 0.665)
               * (2.6 * (1 + 0.54 * 2)) * (0.6108 * E - 0.6108 * E * 60 / 100))
      with ((4098 * (0.6108 * E) / 68801.29 * (20 / 2.45)
             + 0.665 * (2.6 * (1 + 0.54 * 2))
               * (0.6108 * E - 0.6108 * E * 60 / 100))
            / (4098 * (0.6108 * E) / 68801.29 + 0.665)) by (field; lra).
    apply div_window; lra. }
  exists (PenmanSpec.raw 25 60 2 20).
  rewrite (penman_returns 25 60 2 20 HT), Rmax_right by lra.
  split; [| split; [lra | apply (py_round3_eq _ _ 7142); lra]].
  unfold PenmanSpec.components, PenmanSpec.round3.
  rewrite (py_round3_eq (PenmanSpec.radiation_component 25 20) 1.804 1804) by lra.
  rewrite (py_round3_eq (PenmanSpec.aerodynamic_component 25 60 2) 5.338 5338) by lra.
  rewrite (py_round3_eq (PenmanSpec.es 25) 3.168 3168) by (rewrite ?Hes; lra).
  rewrite (py_round3_eq (PenmanSpec.ea 25 60) 1.901 1901)
    by (unfold PenmanSpec.ea; rewrite ?Hes; lra).
  rewrite (py_round3_eq (PenmanSpec.es 25 - PenmanSpec.ea 25 60) 1.267 1267)
    by (unfold PenmanSpec.ea; rewrite ?Hes; lra).
  rewrite (py_round3_eq (PenmanSpec.delta 25) 0.189 189) by (rewrite ?Hd; lra).
  rewrite (py_round3_eq (PenmanSpec.fu 2) 5.408 5408) by (unfold PenmanSpec.fu; lra).
  rewrite (py_round3_eq (PenmanSpec.rn 20) 8.163 8163) by (unfold PenmanSpec.rn; lra).
  reflexivity.
Qed.

(** ** The storage-planning model *)

Section StorageFacts.
Import StorageSpec.

(** What [calculate_storage_planning] returns, with the loop unrolled over
    the four seasons and the sum written out. *)
Lemma storage_planning_returns (er : EvaporationResult.t) (A : R) :
  let r := EvaporationResult.evaporation_rate er in
  calculate_storage_planning er A
  = Some (PlanningData.mk
            (py_round (rounded_totals_sum r A * 1.5) 2)
            [ ("spring"%string, season_record r A 0.8);
              ("summer"%string, season_record r A 1.3);
              ("autumn"%string, season_record r A 0.7);
              ("winter"%string, season_record r A 0.4) ]
            irrigation_recommendations_data
            [ ("annual_evaporation_loss"%string,
                py_round (rounded_totals_sum r A) 2);
              ("recommended_buffer"%string,
                py_round (rounded_totals_sum r A * 0.5) 2);
              ("total_recommended_capacity"%string,
                py_round (rounded_totals_sum r A * 1.5) 2);
              ("surface_area_assumed"%string, A) ]).
Proof.
  intros r. unfold calculate_storage_planning. fold r.
  rewrite (py_truediv_some r 1000) by lra. cbn [bind].
  cbn [seasonal_factors fold_left season_entry dict_set String.eqb Ascii.eqb
       Bool.eqb dict_values map snd seasonal_totals dict_get bind].
  unfold py_sum. cbn [fold_left].
  unfold rounded_totals_sum, season_record, seasonal_total, round2, daily_loss.
  rewrite Rplus_0_l. reflexivity.
Qed.

Lemma round2_error (x : R) : Rabs (py_round x 2 - x) <= 0.005.
Proof.
  pose proof (py_round_error x 2) as H.
  replace (/ 2 / 10 ^ 2) with 0.005 in H by (simpl; lra). exact H.
Qed.



Lemma rounded_vs_exact_sum (r A : R) :
  Rabs (rounded_totals_sum r A - exact_totals_sum r A) <= 0.02.
Proof.
  unfold rounded_totals_sum, exact_totals_sum, round2.
  pose proof (round2_error (seasonal_total r A 0.8)) as H1.
  pose proof (round2_error (seasonal_total r A 1.3)) as H2.
  pose proof (round2_error (seasonal_total r A 0.7)) as H3.
  pose proof (round2_error (seasonal_total r A 0.4)) as H4.
  apply Rabs_bound in H1, H2, H3, H4. apply Rabs_le. lra.
Qed.
End StorageFacts.

(** *** Claims on the storage-planning model *)





(** ** Timestamps: the round trip and the order of the stored strings *)

Section DateTimeFacts.
Local Open Scope string_scope.
Local Open Scope N_scope.

Lemma digit_val_digit_char (n : N) :
  n < 10 -> digit_val (digit_char n) = Some n.
Proof.
  intros Hn. unfold digit_val, digit_char.
  rewrite N_ascii_embedding by lia.
  replace (48 <=? 48 + n) with true by (symmetry; apply N.leb_le; lia).
  replace (48 + n <=? 57) with true by (symmetry; apply N.leb_le; lia).
  cbn [andb]. f_equal. lia.
Qed.

Lemma pow10_nonzero (w : nat) : 10 ^ N.of_nat w <> 0.
Proof. apply N.pow_nonzero. discriminate. Qed.

Lemma pow10_succ (w : nat) : 10 ^ N.of_nat (S w) = 10 ^ N.of_nat w * 10.
Proof. rewrite Nat2N.inj_succ, N.pow_succ_r'. lia. Qed.

(** The low [w + 1] digits split into the leading digit and the low [w]. *)
Lemma mod_pow10_succ (w : nat) (n : N) :
  n mod 10 ^ N.of_nat (S w)
  = n mod 10 ^ N.of_nat w + 10 ^ N.of_nat w * ((n / 10 ^ N.of_nat w) mod 10).
Proof. rewrite pow10_succ. apply N.Div0.mod_mul_r. Qed.

Lemma parse_digits_zpad (w : nat) : forall (acc n : N) (rest : string),
  parse_digits w acc (zpad w n ++ rest)
  = Some (acc * 10 ^ N.of_nat w + n mod 10 ^ N.of_nat w, rest).
Proof.
  induction w as [| w IH]; intros acc n rest.
  - cbn. rewrite N.mod_1_r. do 2 f_equal. lia.
  - cbn [zpad append parse_digits].
    rewrite digit_val_digit_char by (apply N.mod_lt; discriminate).
    cbn [bind]. rewrite IH, mod_pow10_succ, pow10_succ. do 2 f_equal. lia.
Qed.

Lemma parse_digits_zpad_small (w : nat) (n : N) (rest : string) :
  n < 10 ^ N.of_nat w ->
  parse_digits w 0 (zpad w n ++ rest) = Some (n, rest).
Proof.
  intros Hn. rewrite parse_digits_zpad, N.mod_small by exact Hn. reflexivity.
Qed.

Lemma days_in_month_le_31 (y m : N) : days_in_month y m <= 31.
Proof.
  unfold days_in_month.
  destruct (m =? 2); [destruct (is_leap y); lia |].
  destruct ((m =? 4) || (m =? 6) || (m =? 9) || (m =? 11)); lia.
Qed.

(** The field ranges a valid datetime gives. *)
Lemma valid_datetime_ranges (d : datetime.t) :
  valid_datetime d = true ->
  datetime.year d < 10 ^ N.of_nat 4 /\ datetime.month d < 10 ^ N.of_nat 2
  /\ datetime.day d < 10 ^ N.of_nat 2 /\ datetime.hour d < 10 ^ N.of_nat 2
  /\ datetime.minute d < 10 ^ N.of_nat 2 /\ datetime.second d < 10 ^ N.of_nat 2
  /\ datetime.microsecond d < 10 ^ N.of_nat 6.
Proof.
  unfold valid_datetime. rewrite !andb_true_iff, !N.leb_le, !N.ltb_lt.
  pose proof (days_in_month_le_31 (datetime.year d) (datetime.month d)).
  change (10 ^ N.of_nat 4) with 10000. change (10 ^ N.of_nat 2) with 100.
  change (10 ^ N.of_nat 6) with 1000000. lia.
Qed.

(** [fromisoformat] undoes [isoformat] on every valid datetime. *)
Lemma fromisoformat_isoformat (d : datetime.t) :
  valid_datetime d = true -> fromisoformat (isoformat d) = Some d.
Proof.
  intros Hv.
  destruct (valid_datetime_ranges d Hv) as (Hy & Hm & Hd & Hh & Hmi & Hs & Hu).
  unfold fromisoformat, isoformat.
  rewrite parse_digits_zpad_small by exact Hy. cbn [bind snd fst expect append Ascii.eqb Bool.eqb].
  rewrite parse_digits_zpad_small by exact Hm. cbn [bind snd fst expect append Ascii.eqb Bool.eqb].
  rewrite parse_digits_zpad_small by exact Hd. cbn [bind snd fst skip_char append].
  rewrite parse_digits_zpad_small by exact Hh. cbn [bind snd fst expect append Ascii.eqb Bool.eqb].
  rewrite parse_digits_zpad_small by exact Hmi. cbn [bind snd fst expect append Ascii.eqb Bool.eqb].
  rewrite parse_digits_zpad_small by exact Hs. cbn [bind snd fst].
  destruct (datetime.microsecond d =? 0) eqn:Hz.
  - apply N.eqb_eq in Hz. cbn [append parse_fraction bind snd fst].
    rewrite String.eqb_refl. rewrite <- Hz.
    destruct d; cbn in *. now rewrite Hv.
  - cbn [append parse_fraction].
    rewrite parse_digits_zpad_small by exact Hu. cbn [bind snd fst].
    rewrite String.eqb_refl. destruct d; cbn in *. now rewrite Hv.
Qed.

(** *** Byte order of the stored strings *)

Lemma ascii_compare_refl (c : ascii) : Ascii.compare c c = Eq.
Proof. unfold Ascii.compare. apply N.compare_refl. Qed.

Lemma string_compare_refl (s : string) : String.compare s s = Eq.
Proof.
  induction s as [| c s IH]; [reflexivity |].
  cbn [String.compare]. now rewrite ascii_compare_refl.
Qed.

Lemma compare_digit_char (a b : N) :
  a < 10 -> b < 10 -> Ascii.compare (digit_char a) (digit_char b) = (a ?= b).
Proof.
  intros Ha Hb. unfold Ascii.compare, digit_char.
  rewrite !N_ascii_embedding by lia.
  destruct (N.compare_spec a b) as [H | H | H].
  - apply N.compare_eq_iff. lia.
  - apply N.compare_lt_iff. lia.
  - apply N.compare_gt_iff. lia.
Qed.

(** Two fields printed at the same width compare as their values do, and
    the strings after them decide a tie. *)
Lemma compare_zpad (w : nat) : forall (a b : N) (s1 s2 : string),
  String.compare (zpad w a ++ s1) (zpad w b ++ s2)
  = match a mod 10 ^ N.of_nat w ?= b mod 10 ^ N.of_nat w with
    | Eq => String.compare s1 s2
    | c => c
    end.
Proof.
  induction w as [| w IH]; intros a b s1 s2.
  - cbn [zpad append]. change (10 ^ N.of_nat 0) with 1.
    now rewrite !N.mod_1_r.
  - cbn [zpad append String.compare].
    rewrite compare_digit_char by (apply N.mod_lt; discriminate).
    rewrite IH, !mod_pow10_succ.
    pose proof (N.mod_lt a _ (pow10_nonzero w)) as Ha.
    pose proof (N.mod_lt b _ (pow10_nonzero w)) as Hb.
    set (p := 10 ^ N.of_nat w) in *.
    set (ra := a mod p) in *. set (rb := b mod p) in *.
    set (da := (a / p) mod 10). set (db := (b / p) mod 10).
    destruct (N.compare_spec da db) as [Hd | Hd | Hd].
    + rewrite Hd.
      destruct (N.compare_spec ra rb) as [Hr | Hr | Hr].
      * rewrite Hr, N.compare_refl. reflexivity.
      * replace (ra + p * db ?= rb + p * db) with Lt
          by (symmetry; apply N.compare_lt_iff; lia). reflexivity.
      * replace (ra + p * db ?= rb + p * db) with Gt
          by (symmetry; apply N.compare_gt_iff; lia). reflexivity.
    + replace (ra + p * da ?= rb + p * db) with Lt; [reflexivity |].
      symmetry. apply N.compare_lt_iff. nia.
    + replace (ra + p * da ?= rb + p * db) with Gt; [reflexivity |].
      symmetry. apply N.compare_gt_iff. nia.
Qed.

Lemma compare_zpad_small (w : nat) (a b : N) (s1 s2 : string) :
  a < 10 ^ N.of_nat w -> b < 10 ^ N.of_nat w ->
  String.compare (zpad w a ++ s1) (zpad w b ++ s2)
  = match a ?= b with
    | Eq => String.compare s1 s2
    | c => c
    end.
Proof.
  intros Ha Hb. rewrite compare_zpad, !N.mod_small by assumption. reflexivity.
Qed.

(** The stored strings of two valid datetimes are in the order of their
    instants. *)
Lemma compare_isoformat (d1 d2 : datetime.t) :
  valid_datetime d1 = true -> valid_datetime d2 = true ->
  String.compare (isoformat d1) (isoformat d2) = dt_compare d1 d2.
Proof.
  intros Hv1 Hv2.
  destruct (valid_datetime_ranges d1 Hv1) as (Hy1 & Hm1 & Hd1 & Hh1 & Hmi1 & Hs1 & Hu1).
  destruct (valid_datetime_ranges d2 Hv2) as (Hy2 & Hm2 & Hd2 & Hh2 & Hmi2 & Hs2 & Hu2).
  unfold isoformat, dt_compare, dt_key. cbn [lex_compare].
  rewrite compare_zpad_small by assumption.
  destruct (datetime.year d1 ?= datetime.year d2); try reflexivity.
  cbn [append String.compare]. rewrite ascii_compare_refl.
  rewrite compare_zpad_small by assumption.
  destruct (datetime.month d1 ?= datetime.month d2); try reflexivity.
  cbn [append String.compare]. rewrite ascii_compare_refl.
  rewrite compare_zpad_small by assumption.
  destruct (datetime.day d1 ?= datetime.day d2); try reflexivity.
  cbn [append String.compare]. rewrite ascii_compare_refl.
  rewrite compare_zpad_small by assumption.
  destruct (datetime.hour d1 ?= datetime.hour d2); try reflexivity.
  cbn [append String.compare]. rewrite ascii_compare_refl.
  rewrite compare_zpad_small by assumption.
  destruct (datetime.minute d1 ?= datetime.minute d2); try reflexivity.
  cbn [append String.compare]. rewrite ascii_compare_refl.
  rewrite compare_zpad_small by assumption.
  destruct (datetime.second d1 ?= datetime.second d2); try reflexivity.
  destruct (N.eqb_spec (datetime.microsecond d1) 0) as [Hz1 | Hz1];
    destruct (N.eqb_spec (datetime.microsecond d2) 0) as [Hz2 | Hz2].
  - rewrite Hz1, Hz2. reflexivity.
  - rewrite Hz1. cbn [append String.compare].
    replace (0 ?= datetime.microsecond d2) with Lt
      by (symmetry; apply N.compare_lt_iff; lia).
    reflexivity.
  - rewrite Hz2. cbn [append String.compare].
    replace (datetime.microsecond d1 ?= 0) with Gt
      by (symmetry; apply N.compare_gt_iff; lia).
    reflexivity.
  - cbn [append String.compare]. rewrite ascii_compare_refl.
    rewrite compare_zpad_small by assumption.
    destruct (datetime.microsecond d1 ?= datetime.microsecond d2); reflexivity.
Qed.
End DateTimeFacts.

(** ** The sort order of the store *)

Section OrderFacts.
Local Open Scope N_scope.

Lemma lex_compare_antisym : forall a b : list N,
  lex_compare a b = CompOpp (lex_compare b a).
Proof.
  induction a as [| x a IH]; intros [| y b]; cbn [lex_compare]; try reflexivity.
  rewrite (N.compare_antisym y x).
  destruct (y ?= x); cbn [CompOpp]; [apply IH | reflexivity | reflexivity].
Qed.

Lemma lex_compare_ge_trans : forall a b c : list N,
  lex_compare a b <> Lt -> lex_compare b c <> Lt -> lex_compare a c <> Lt.
Proof.
  induction a as [| x a IH]; intros [| y b] [| z c]; cbn [lex_compare];
    try congruence.
  destruct (N.compare_spec x y) as [Hxy | Hxy | Hxy]; try congruence;
    destruct (N.compare_spec y z) as [Hyz | Hyz | Hyz]; try congruence;
    intros H1 H2.
  - subst. rewrite N.compare_refl. now apply IH with b.
  - subst. replace (y ?= z) with Gt by (symmetry; apply N.compare_gt_iff; lia).
    discriminate.
  - subst. replace (x ?= z) with Gt by (symmetry; apply N.compare_gt_iff; lia).
    discriminate.
  - replace (x ?= z) with Gt by (symmetry; apply N.compare_gt_iff; lia).
    discriminate.
Qed.

Lemma string_compare_ge_trans : forall s1 s2 s3 : string,
  String.compare s1 s2 <> Lt -> String.compare s2 s3 <> Lt ->
  String.compare s1 s3 <> Lt.
Proof.
  induction s1 as [| c1 s1 IH]; intros [| c2 s2] [| c3 s3];
    cbn [String.compare]; try congruence.
  unfold Ascii.compare.
  destruct (N.compare_spec (N_of_ascii c1) (N_of_ascii c2)) as [H12 | H12 | H12];
    try congruence;
    destruct (N.compare_spec (N_of_ascii c2) (N_of_ascii c3)) as [H23 | H23 | H23];
    try congruence; intros H1 H2.
  - rewrite H12, H23, N.compare_refl. now apply IH with s2.
  - rewrite H12.
    replace (N_of_ascii c2 ?= N_of_ascii c3) with Gt
      by (symmetry; apply N.compare_gt_iff; lia).
    discriminate.
  - rewrite <- H23.
    replace (N_of_ascii c1 ?= N_of_ascii c2) with Gt
      by (symmetry; apply N.compare_gt_iff; lia).
    discriminate.
  - replace (N_of_ascii c1 ?= N_of_ascii c3) with Gt
      by (symmetry; apply N.compare_gt_iff; lia).
    discriminate.
Qed.

Lemma bson_compare_antisym (a b : bson_ts) :
  bson_compare a b = CompOpp (bson_compare b a).
Proof.
  destruct a, b; cbn [bson_compare CompOpp]; try reflexivity.
  - apply String.compare_antisym.
  - apply lex_compare_antisym.
Qed.

Lemma bson_ge_trans (a b c : bson_ts) :
  bson_ge a b -> bson_ge b c -> bson_ge a c.
Proof.
  unfold bson_ge. destruct a, b, c; cbn [bson_compare]; try congruence.
  - apply string_compare_ge_trans.
  - apply lex_compare_ge_trans.
Qed.

(** Not below means the other way round is not above. *)
Lemma bson_lt_ge (a b : bson_ts) : bson_compare a b = Lt -> bson_ge b a.
Proof.
  unfold bson_ge. rewrite (bson_compare_antisym b a). intros ->. discriminate.
Qed.

(** On stored timestamps the store's order is the order of the instants. *)
Lemma bson_ge_isoformat (d1 d2 : datetime.t) :
  valid_datetime d1 = true -> valid_datetime d2 = true ->
  bson_ge (BsonString (isoformat d1)) (BsonString (isoformat d2))
  <-> newer_or_equal d1 d2.
Proof.
  intros H1 H2. unfold bson_ge, newer_or_equal. cbn [bson_compare].
  now rewrite compare_isoformat.
Qed.
End OrderFacts.

Section SortFacts.
Context {A : Type} (key : A -> bson_ts).

Let ge (x y : A) : Prop := bson_ge (key x) (key y).

Lemma insert_desc_perm (x : A) (l : list A) :
  Permutation (insert_desc key x l) (x :: l).
Proof.
  induction l as [| y l IH]; cbn [insert_desc]; [reflexivity |].
  destruct (bson_compare (key x) (key y)); try reflexivity.
  rewrite IH. apply perm_swap.
Qed.

Lemma sort_desc_perm (l : list A) : Permutation (sort_desc key l) l.
Proof.
  induction l as [| x l IH]; cbn; [reflexivity |].
  fold (sort_desc key l). rewrite insert_desc_perm. now constructor.
Qed.

Lemma insert_desc_sorted (x : A) (l : list A) :
  StronglySorted ge l -> StronglySorted ge (insert_desc key x l).
Proof.
  induction l as [| y l IH]; intros Hs; cbn [insert_desc].
  - repeat constructor.
  - apply StronglySorted_inv in Hs as [Hs Hall].
    destruct (bson_compare (key x) (key y)) eqn:Hc.
    + constructor; [now constructor |]. constructor.
      * unfold ge, bson_ge. congruence.
      * eapply Forall_impl; [| exact Hall]. intros z Hz.
        unfold ge in *. apply bson_ge_trans with (key y); [| exact Hz].
        unfold bson_ge. congruence.
    + constructor; [now apply IH |].
      apply (Permutation_Forall (Permutation_sym (insert_desc_perm x l))).
      constructor; [| exact Hall].
      now apply bson_lt_ge.
    + constructor; [now constructor |]. constructor.
      * unfold ge, bson_ge. congruence.
      * eapply Forall_impl; [| exact Hall]. intros z Hz.
        unfold ge in *. apply bson_ge_trans with (key y); [| exact Hz].
        unfold bson_ge. congruence.
Qed.

Lemma sort_desc_sorted (l : list A) : StronglySorted ge (sort_desc key l).
Proof.
  induction l as [| x l IH]; cbn; [constructor |].
  now apply insert_desc_sorted.
Qed.

Lemma sort_desc_length (l : list A) :
  List.length (sort_desc key l) = List.length l.
Proof. apply Permutation_length, sort_desc_perm. Qed.
End SortFacts.

(** ** Reading a collection back *)

Section ListFacts.
Context {A B : Type}.

Lemma map_raise_Forall2 (f : A -> option B) : forall (l : list A) (rs : list B),
  map_raise f l = Some rs <-> Forall2 (fun x r => f x = Some r) l rs.
Proof.
  induction l as [| x l IH]; intros rs; cbn [map_raise].
  - split; [intros [= <-]; constructor | intros H; inversion H; reflexivity].
  - split.
    + destruct (f x) as [y |] eqn:Hx; cbn [bind]; [| discriminate].
      destruct (map_raise f l) as [ys |] eqn:Hl; cbn [bind]; [| discriminate].
      intros [= <-]. constructor; [exact Hx | now apply IH].
    + intros H. inversion H as [| x' r l' rs' Hx Hrest]; subst.
      rewrite Hx. cbn [bind]. apply IH in Hrest. rewrite Hrest. reflexivity.
Qed.

Lemma map_raise_total (f : A -> option B) (l : list A) :
  Forall (fun x => exists r, f x = Some r) l ->
  exists rs, map_raise f l = Some rs.
Proof.
  induction 1 as [| x l [r Hx] _ [rs IH]]; cbn [map_raise].
  - now exists [].
  - rewrite Hx, IH. cbn [bind]. now eexists.
Qed.

Lemma In_firstn (n : nat) : forall (l : list A) (y : A),
  In y (firstn n l) -> In y l.
Proof.
  induction n as [| n IH]; intros [| x l] y; cbn [firstn In]; try tauto.
  intros [-> | H]; [now left | right; now apply IH].
Qed.

Lemma StronglySorted_firstn (R : A -> A -> Prop) (n : nat) : forall l : list A,
  StronglySorted R l -> StronglySorted R (firstn n l).
Proof.
  induction n as [| n IH]; intros [| x l] Hs; cbn [firstn]; try constructor.
  - apply IH. now apply StronglySorted_inv in Hs.
  - apply StronglySorted_inv in Hs as [_ Hall].
    rewrite Forall_forall in *. intros y Hy. apply Hall.
    now apply In_firstn with n.
Qed.

Lemma Forall2_in_r (P : A -> B -> Prop) : forall (l : list A) (l' : list B),
  Forall2 P l l' -> forall y, In y l' -> exists x, In x l /\ P x y.
Proof.
  induction 1 as [| x y l l' Hxy _ IH]; intros z Hz; [contradiction |].
  destruct Hz as [<- | Hz].
  - exists x. split; [now left | exact Hxy].
  - destruct (IH z Hz) as (x' & Hin & Hp). exists x'. split; [now right | exact Hp].
Qed.

Lemma Forall2_in_l (P : A -> B -> Prop) : forall (l : list A) (l' : list B),
  Forall2 P l l' -> forall x, In x l -> exists y, In y l' /\ P x y.
Proof.
  induction 1 as [| x y l l' Hxy _ IH]; intros z Hz; [contradiction |].
  destruct Hz as [<- | Hz].
  - exists y. split; [now left | exact Hxy].
  - destruct (IH z Hz) as (y' & Hin & Hp). exists y'. split; [now right | exact Hp].
Qed.

Lemma StronglySorted_app_cross (R : A -> A -> Prop) : forall l1 l2 : list A,
  StronglySorted R (l1 ++ l2) ->
  forall x y, In x l1 -> In y l2 -> R x y.
Proof.
  induction l1 as [| a l1 IH]; intros l2 Hs x y Hx Hy; [contradiction |].
  cbn [app] in Hs. apply StronglySorted_inv in Hs as [Hs Hall].
  destruct Hx as [<- | Hx].
  - rewrite Forall_forall in Hall. apply Hall, in_or_app. now right.
  - now apply (IH l2 Hs).
Qed.
End ListFacts.

Section HistoryFacts.
Context {D R : Type} (key : D -> bson_ts) (of_doc : D -> option R)
  (ts : R -> datetime.t).

Let doc_ok := doc_ok key of_doc ts.

Lemma doc_ok_ge (d1 d2 : D) (r1 r2 : R) :
  doc_ok d1 -> doc_ok d2 -> of_doc d1 = Some r1 -> of_doc d2 = Some r2 ->
  bson_ge (key d1) (key d2) -> newer_or_equal (ts r1) (ts r2).
Proof.
  intros (r1' & E1 & V1 & K1) (r2' & E2 & V2 & K2) H1 H2 Hge.
  rewrite H1 in E1. rewrite H2 in E2. injection E1 as <-. injection E2 as <-.
  rewrite K1, K2 in Hge. now apply bson_ge_isoformat in Hge.
Qed.

Lemma sorted_docs_newest_first : forall (docs : list D) (page : list R),
  Forall doc_ok docs ->
  StronglySorted (fun x y => bson_ge (key x) (key y)) docs ->
  Forall2 (fun d r => of_doc d = Some r) docs page ->
  newest_first (map ts page).
Proof.
  unfold newest_first.
  induction docs as [| d docs IH]; intros page Hok Hs H2;
    inversion H2 as [| d' r docs' page' Hd Hrest]; subst; cbn [map].
  - constructor.
  - apply StronglySorted_inv in Hs as [Hs Hall].
    inversion Hok as [| ? ? Hokd Hokrest]; subst.
    constructor; [now apply IH |].
    rewrite Forall_forall. intros t Ht. apply in_map_iff in Ht as (r' & <- & Hr').
    destruct (Forall2_in_r _ _ _ Hrest r' Hr') as (d' & Hd'in & Hd').
    rewrite Forall_forall in Hall, Hokrest.
    apply (doc_ok_ge d d'); auto.
Qed.

(** The read [map_raise of_doc (firstn limit (sort_desc key store))]
    succeeds on a store of well-formed documents, and its answer is the
    recent page. *)
Lemma history_read (limit : nat) (store : list D) :
  Forall doc_ok store ->
  exists page,
    map_raise of_doc (firstn limit (sort_desc key store)) = Some page
    /\ recent_page of_doc ts limit store page.
Proof.
  intros Hok.
  assert (Hperm := sort_desc_perm key store).
  assert (Hsorted := sort_desc_sorted key store). cbv zeta in Hsorted.
  assert (Hok' : Forall doc_ok (sort_desc key store))
    by (apply (Permutation_Forall (Permutation_sym Hperm)); exact Hok).
  set (sorted := sort_desc key store) in *.
  assert (Hokf : Forall doc_ok (firstn limit sorted)).
  { rewrite Forall_forall in *. intros d Hd. apply Hok'. now apply In_firstn with limit. }
  destruct (map_raise_total of_doc (firstn limit sorted)) as [page Hpage].
  { eapply Forall_impl; [| exact Hokf]. intros d (r & Hr & _). now exists r. }
  exists page. split; [exact Hpage |].
  apply map_raise_Forall2 in Hpage.
  split; [| split].
  - rewrite <- (Forall2_length Hpage), length_firstn. unfold sorted.
    now rewrite sort_desc_length.
  - apply (sorted_docs_newest_first (firstn limit sorted)); try assumption.
    now apply StronglySorted_firstn.
  - exists (firstn limit sorted), (skipn limit sorted).
    split; [rewrite firstn_skipn; exact Hperm |]. split; [exact Hpage |].
    intros r o ro Hr Ho Hro.
    destruct (Forall2_in_r _ _ _ Hpage r Hr) as (d & Hdin & Hd).
    rewrite <- (firstn_skipn limit sorted) in Hsorted.
    pose proof (StronglySorted_app_cross _ _ _ Hsorted d o Hdin Ho) as Hge.
    rewrite Forall_forall in Hok'.
    apply (doc_ok_ge d o); auto.
    + apply Hok'. now apply In_firstn with limit.
    + apply Hok'. rewrite <- (firstn_skipn limit sorted). apply in_or_app. now right.
Qed.
End HistoryFacts.

(** ** The store along the runs of the service *)

Lemma parse_stored_timestamp (ts : bson_ts) :
  stored_timestamp ts ->
  exists d, parse_timestamp ts = Some d /\ valid_datetime d = true
            /\ ts = BsonString (isoformat d).
Proof.
  intros (d & Hv & ->). exists d. cbn [parse_timestamp].
  now rewrite fromisoformat_isoformat.
Qed.

Lemma evaporation_doc_ok (doc : EvaporationDoc.t) :
  stored_timestamp (EvaporationDoc.timestamp doc) ->
  doc_ok EvaporationDoc.timestamp evaporation_of_doc EvaporationResult.timestamp doc.
Proof.
  intros Hs. destruct (parse_stored_timestamp _ Hs) as (d & Hp & Hv & Hk).
  unfold doc_ok, evaporation_of_doc. rewrite Hp. cbn [bind].
  eexists. split; [reflexivity |]. cbn [EvaporationResult.timestamp]. now split.
Qed.

Lemma storage_planning_doc_ok (doc : StoragePlanningDoc.t) :
  stored_timestamp (StoragePlanningDoc.timestamp doc) ->
  stored_timestamp
    (EvaporationDoc.timestamp (StoragePlanningDoc.evaporation_data doc)) ->
  doc_ok StoragePlanningDoc.timestamp storage_planning_of_doc
    StoragePlanningResult.timestamp doc.
Proof.
  intros Hs He. destruct (parse_stored_timestamp _ Hs) as (d & Hp & Hv & Hk).
  destruct (evaporation_doc_ok _ He) as (ev & Hev & _).
  unfold doc_ok, storage_planning_of_doc. rewrite Hp, Hev. cbn [bind].
  eexists. split; [reflexivity |]. cbn [StoragePlanningResult.timestamp]. now split.
Qed.

Lemma status_doc_ok (doc : StatusDoc.t) :
  stored_timestamp (StatusDoc.timestamp doc) ->
  doc_ok StatusDoc.timestamp status_check_of_doc StatusCheck.timestamp doc.
Proof.
  intros Hs. destruct (parse_stored_timestamp _ Hs) as (d & Hp & Hv & Hk).
  unfold doc_ok, status_check_of_doc. rewrite Hp. cbn [bind].
  eexists. split; [reflexivity |]. cbn [StatusCheck.timestamp]. now split.
Qed.

(** What a successful [calculate_evaporation] did. *)
Lemma calculate_evaporation_inv new_id now db w result db' :
  calculate_evaporation new_id now db w = Some (result, db') ->
  EvaporationResult.id result = new_id
  /\ EvaporationResult.timestamp result = now
  /\ EvaporationResult.weather_input result = w
  /\ db' = Db.mk (insert_one (Db.evaporation_results db) (evaporation_doc result))
             (Db.storage_planning_results db) (Db.status_checks db).
Proof.
  unfold calculate_evaporation.
  destruct (calculate_penman_evaporation _ _ _ _) as [[rate comps] |];
    cbn [bind]; [| discriminate].
  intros [= <- <-]. repeat split.
Qed.

Lemma calculate_storage_planning_endpoint_inv id1 now1 id2 now2 db w sa result db' :
  calculate_storage_planning_endpoint id1 now1 id2 now2 db w sa
  = Some (result, db') ->
  StoragePlanningResult.timestamp result = now2
  /\ EvaporationResult.timestamp (StoragePlanningResult.evaporation_data result)
     = now1
  /\ db' = Db.mk (Db.evaporation_results db)
             (insert_one (Db.storage_planning_results db)
                (storage_planning_doc result))
             (Db.status_checks db).
Proof.
  unfold calculate_storage_planning_endpoint.
  destruct (calculate_penman_evaporation _ _ _ _) as [[rate comps] |];
    cbn [bind]; [| discriminate].
  destruct (calculate_storage_planning _ _) as [plan |]; cbn [bind]; [| discriminate].
  intros [= <- <-]. repeat split.
Qed.

Lemma stored_timestamp_isoformat (d : datetime.t) :
  valid_datetime d = true -> stored_timestamp (BsonString (isoformat d)).
Proof. intros Hv. now exists d. Qed.

(** Every write keeps the store well formed. *)
Lemma step_db_wf (db db' : Db.t) : db_wf db -> step db db' -> db_wf db'.
Proof.
  intros (He & Hs & Hc) Hstep.
  destruct Hstep as [new_id now db w result db' Hv Hcall
                    | id1 now1 id2 now2 db w sa result db' Hv1 Hv2 Hcall
                    | new_id now db input Hv].
  - destruct (calculate_evaporation_inv _ _ _ _ _ _ Hcall) as (_ & Hts & _ & ->).
    unfold db_wf. cbn [Db.evaporation_results Db.storage_planning_results Db.status_checks].
    repeat split; try assumption.
    unfold insert_one. apply Forall_app. split; [exact He |].
    constructor; [| constructor]. cbn. rewrite Hts.
    now apply stored_timestamp_isoformat.
  - destruct (calculate_storage_planning_endpoint_inv _ _ _ _ _ _ _ _ _ Hcall)
      as (Hts2 & Hts1 & ->).
    unfold db_wf. cbn [Db.evaporation_results Db.storage_planning_results Db.status_checks].
    repeat split; try assumption.
    unfold insert_one. apply Forall_app. split; [exact Hs |].
    constructor; [| constructor]. cbn. rewrite Hts1, Hts2.
    split; now apply stored_timestamp_isoformat.
  - unfold db_wf. cbn. repeat split; try assumption.
    unfold insert_one. apply Forall_app. split; [exact Hc |].
    constructor; [| constructor]. cbn. now apply stored_timestamp_isoformat.
Qed.

Lemma reachable_db_wf (db : Db.t) : reachable db -> db_wf db.
Proof.
  induction 1 as [| db db' _ IH Hstep].
  - repeat split; constructor.
  - now apply step_db_wf with db.
Qed.

(** A document newer than all the others sorts first. *)
Lemma sort_desc_newest_last {A : Type} (key : A -> bson_ts) (x : A) :
  forall l : list A,
    Forall (fun y => bson_compare (key y) (key x) = Lt) l ->
    sort_desc key (l ++ [x]) = x :: sort_desc key l.
Proof.
  induction l as [| y l IH]; intros Hall; [reflexivity |].
  inversion Hall as [| ? ? Hy Hrest]; subst.
  cbn [app]. unfold sort_desc in *. cbn [fold_right].
  rewrite (IH Hrest). cbn [insert_desc]. now rewrite Hy.
Qed.

(** *** Claims on the persistence contract *)

Lemma repeat_calculate_evaporation_reachable (n : nat) :
  reachable (repeat_calculate_evaporation n Db.empty).
Proof.
  induction n as [| n IH]; cbn [repeat_calculate_evaporation]; [constructor |].
  destruct (calculate_evaporation _ _ _ _) as [[result db'] |] eqn:Hcall;
    [| exact IH].
  apply reachable_step with (repeat_calculate_evaporation n Db.empty); [exact IH |].
  now apply (step_calculate_evaporation "sample-id" sample_instant _ sample_weather result).
Qed.

Lemma calculate_evaporation_sample (new_id : string) (now : datetime.t) (db : Db.t) :
  exists result,
    calculate_evaporation new_id now db sample_weather
    = Some (result,
            Db.mk (insert_one (Db.evaporation_results db) (evaporation_doc result))
              (Db.storage_planning_results db) (Db.status_checks db)).
Proof.
  unfold calculate_evaporation, sample_weather.
  cbn [WeatherInput.temperature WeatherInput.humidity WeatherInput.wind_speed
       WeatherInput.solar_radiation].
  rewrite (penman_returns 25 60 2 20) by (apply in_range_defined; lra). cbn [bind]. eexists. reflexivity.
Qed.

Lemma repeat_calculate_evaporation_length (n : nat) :
  List.length (Db.evaporation_results (repeat_calculate_evaporation n Db.empty)) = n.
Proof.
  induction n as [| n IH]; cbn [repeat_calculate_evaporation]; [reflexivity |].
  destruct (calculate_evaporation_sample "sample-id" sample_instant
              (repeat_calculate_evaporation n Db.empty)) as [result ->].
  cbn [Db.evaporation_results]. unfold insert_one.
  rewrite length_app, IH. cbn. lia.
Qed.

(** C4, as stated, fails for the status list: it is read without a sort, so
    two pings come back in the order they were written, the older one
    first. *)
Lemma C4_status_order_counterexample :
  reachable two_pings
  /\ exists older newer,
       get_status_checks two_pings = Some [older; newer]
       /\ dt_compare (StatusCheck.timestamp older) (StatusCheck.timestamp newer) = Lt
       /\ ~ newest_first (map StatusCheck.timestamp [older; newer]).
Proof.
  split.
  - unfold two_pings.
    apply reachable_step with
      (snd (create_status_check "ping-1" sample_instant Db.empty
              (StatusCheckCreate.mk "client"))).
    + apply reachable_step with Db.empty; [constructor |].
      now apply step_create_status_check.
    + now apply step_create_status_check.
  - exists (StatusCheck.mk "ping-1" "client" sample_instant),
           (StatusCheck.mk "ping-2" "client" later_instant).
    split; [vm_compute; reflexivity |]. split; [reflexivity |].
    intros Hs. apply StronglySorted_inv in Hs as [_ Hall].
    inversion Hall as [| ? ? Hge _]; subst. apply Hge. reflexivity.
Qed.

(** C4, amended: in every store the service can reach, the evaporation
    history and the storage-planning history each return at most 50 records,
    newest first by timestamp, none of the records left out being newer than
    a returned one (so of 51 stored evaporation records exactly 50 come
    back); the status list returns at most 1000 records, the first 1000 in
    insertion order, with no ordering by timestamp. *)
Theorem C4_history_pages (db : Db.t) :
  reachable db ->
  (exists page,
     get_evaporation_history db = Some page
     /\ recent_page evaporation_of_doc EvaporationResult.timestamp 50
          (Db.evaporation_results db) page
     /\ (List.length page <= 50)%nat
     /\ (List.length (Db.evaporation_results db) = 51%nat ->
         List.length page = 50%nat))
  /\ (exists page,
        get_storage_planning_history db = Some page
        /\ recent_page storage_planning_of_doc StoragePlanningResult.timestamp 50
             (Db.storage_planning_results db) page
        /\ (List.length page <= 50)%nat)
  /\ (exists checks,
        get_status_checks db = Some checks
        /\ Forall2 (fun doc check => status_check_of_doc doc = Some check)
             (firstn 1000 (Db.status_checks db)) checks
        /\ List.length checks = Nat.min 1000 (List.length (Db.status_checks db))).
Proof.
  intros Hreach. destruct (reachable_db_wf db Hreach) as (He & Hs & Hc).
  split; [| split].
  - destruct (history_read EvaporationDoc.timestamp evaporation_of_doc
                EvaporationResult.timestamp 50 (Db.evaporation_results db))
      as (page & Hpage & Hrecent).
    { eapply Forall_impl; [| exact He]. intros doc. apply evaporation_doc_ok. }
    exists page. split; [exact Hpage |]. split; [exact Hrecent |].
    destruct Hrecent as (Hlen & _). rewrite Hlen. split; [lia |].
    intros ->. reflexivity.
  - destruct (history_read StoragePlanningDoc.timestamp storage_planning_of_doc
                StoragePlanningResult.timestamp 50 (Db.storage_planning_results db))
      as (page & Hpage & Hrecent).
    { eapply Forall_impl; [| exact Hs]. intros doc [H1 H2].
      now apply storage_planning_doc_ok. }
    exists page. split; [exact Hpage |]. split; [exact Hrecent |].
    destruct Hrecent as (Hlen & _). rewrite Hlen. lia.
  - destruct (map_raise_total status_check_of_doc (firstn 1000 (Db.status_checks db)))
      as [checks Hchecks].
    { rewrite Forall_forall in *. intros doc Hdoc.
      destruct (status_doc_ok doc (Hc doc (In_firstn _ _ _ Hdoc))) as (r & Hr & _).
      now exists r. }
    exists checks. split; [exact Hchecks |].
    apply map_raise_Forall2 in Hchecks. split; [exact Hchecks |].
    now rewrite <- (Forall2_length Hchecks), length_firstn.
Qed.

Lemma C4_history_pages_witness :
  exists page,
    get_evaporation_history (repeat_calculate_evaporation 51 Db.empty) = Some page
    /\ List.length page = 50%nat.
Proof.
  destruct (C4_history_pages (repeat_calculate_evaporation 51 Db.empty)
              (repeat_calculate_evaporation_reachable 51))
    as ((page & Hpage & _ & _ & H51) & _).
  exists page. split; [exact Hpage |].
  apply H51. apply repeat_calculate_evaporation_length.
Defined.

Lemma evaporation_of_doc_evaporation_doc (result : EvaporationResult.t) :
  valid_datetime (EvaporationResult.timestamp result) = true ->
  evaporation_of_doc (evaporation_doc result) = Some result.
Proof.
  intros Hv. unfold evaporation_of_doc, evaporation_doc.
  cbn [EvaporationDoc.timestamp parse_timestamp].
  rewrite (fromisoformat_isoformat _ Hv). cbn [bind]. now destruct result.
Qed.

(** C5: a valid creation instant survives [isoformat] then [fromisoformat]
    unchanged, the document written for an EvaporationResult parses back to
    that very record, and the history read that follows the write returns it:
    among the listed records whenever the limit of 50 cuts nothing, and as
    the first one whenever every record already stored is older. *)
Theorem C5_persist_then_list (new_id : string) (now : datetime.t) (db : Db.t)
    (w : WeatherInput.t) (result : EvaporationResult.t) (db' : Db.t) :
  reachable db ->
  valid_datetime now = true ->
  calculate_evaporation new_id now db w = Some (result, db') ->
  fromisoformat (isoformat (EvaporationResult.timestamp result))
  = Some (EvaporationResult.timestamp result)
  /\ evaporation_of_doc (evaporation_doc result) = Some result
  /\ exists page,
       get_evaporation_history db' = Some page
       /\ ((List.length (Db.evaporation_results db) < 50)%nat -> In result page)
       /\ ((forall doc d, In doc (Db.evaporation_results db) ->
              parse_timestamp (EvaporationDoc.timestamp doc) = Some d ->
              dt_compare d now = Lt) ->
           hd_error page = Some result).
Proof.
  intros Hreach Hv Hcall.
  destruct (calculate_evaporation_inv _ _ _ _ _ _ Hcall) as (_ & Hts & _ & Hdb).
  assert (Hvr : valid_datetime (EvaporationResult.timestamp result) = true)
    by now rewrite Hts.
  pose proof (evaporation_of_doc_evaporation_doc result Hvr) as Hback.
  split; [now apply fromisoformat_isoformat |]. split; [exact Hback |].
  assert (Hwf' : db_wf db').
  { apply step_db_wf with db; [now apply reachable_db_wf |].
    now apply (step_calculate_evaporation new_id now db w result). }
  destruct (reachable_db_wf db Hreach) as (He & _ & _).
  destruct Hwf' as (He' & _ & _).
  destruct (history_read EvaporationDoc.timestamp evaporation_of_doc
              EvaporationResult.timestamp 50 (Db.evaporation_results db'))
    as (page & Hpage & _).
  { eapply Forall_impl; [| exact He']. intros doc. apply evaporation_doc_ok. }
  exists page. split; [exact Hpage |].
  apply map_raise_Forall2 in Hpage. subst db'. cbn [Db.evaporation_results] in *.
  unfold insert_one in *. split.
  - intros Hlen.
    rewrite firstn_all2 in Hpage
      by (rewrite sort_desc_length, length_app; cbn [List.length]; lia).
    assert (Hin : In (evaporation_doc result)
                    (sort_desc EvaporationDoc.timestamp
                       (Db.evaporation_results db ++ [evaporation_doc result]))).
    { apply (Permutation_in _ (Permutation_sym (sort_desc_perm _ _))).
      apply in_or_app. right. now left. }
    destruct (Forall2_in_l _ _ _ Hpage _ Hin) as (r & Hr & Hdoc).
    rewrite Hback in Hdoc. now injection Hdoc as <-.
  - intros Holder.
    rewrite sort_desc_newest_last in Hpage.
    + cbn [firstn] in Hpage.
      inversion Hpage as [| ? r ? rest Hdoc _]; subst.
      rewrite Hback in Hdoc. injection Hdoc as <-. reflexivity.
    + rewrite Forall_forall in *. intros doc Hdoc.
      destruct (parse_stored_timestamp _ (He doc Hdoc)) as (d & Hp & Hvd & Hk).
      rewrite Hk. cbn [evaporation_doc EvaporationDoc.timestamp bson_compare].
      rewrite compare_isoformat by assumption. rewrite Hts.
      now apply (Holder doc d).
Qed.

Lemma C5_persist_then_list_witness :
  exists result db',
    calculate_evaporation "sample-id" sample_instant Db.empty sample_weather
    = Some (result, db')
    /\ exists page,
         get_evaporation_history db' = Some page
         /\ hd_error page = Some result.
Proof.
  destruct (calculate_evaporation_sample "sample-id" sample_instant Db.empty)
    as [result Hcall].
  exists result. eexists. split; [exact Hcall |].
  destruct (C5_persist_then_list "sample-id" sample_instant Db.empty sample_weather
              result _ reachable_empty eq_refl Hcall)
    as (_ & _ & page & Hpage & _ & Hhead).
  exists page. split; [exact Hpage |].
  apply Hhead. intros doc d Hin. destruct Hin.
Defined.

(** C8: leaving [surface_area] out of the storage-planning request is the
    same as passing 1000: with the same identifiers and instants the two
    calls agree on everything (result, stored document, or failure), and
    whatever the identifiers and instants, their plans agree on every
    computed field. *)
Theorem C8_surface_area_default (w : WeatherInput.t) :
  (forall id1 now1 id2 now2 db,
     calculate_storage_planning_endpoint id1 now1 id2 now2 db w None
     = calculate_storage_planning_endpoint id1 now1 id2 now2 db w (Some 1000))
  /\ (forall id1 now1 id2 now2 db id1' now1' id2' now2' db' plan plan' s s',
        calculate_storage_planning_endpoint id1 now1 id2 now2 db w None
        = Some (plan, s) ->
        calculate_storage_planning_endpoint id1' now1' id2' now2' db' w (Some 1000)
        = Some (plan', s') ->
        StoragePlanningResult.reservoir_capacity_needed plan
        = StoragePlanningResult.reservoir_capacity_needed plan'
        /\ StoragePlanningResult.seasonal_analysis plan
           = StoragePlanningResult.seasonal_analysis plan'
        /\ StoragePlanningResult.irrigation_recommendations plan
           = StoragePlanningResult.irrigation_recommendations plan'
        /\ StoragePlanningResult.water_balance plan
           = StoragePlanningResult.water_balance plan'
        /\ EvaporationResult.evaporation_rate
             (StoragePlanningResult.evaporation_data plan)
           = EvaporationResult.evaporation_rate
               (StoragePlanningResult.evaporation_data plan')
        /\ EvaporationResult.penman_components
             (StoragePlanningResult.evaporation_data plan)
           = EvaporationResult.penman_components
               (StoragePlanningResult.evaporation_data plan')
        /\ EvaporationResult.weather_input
             (StoragePlanningResult.evaporation_data plan)
           = EvaporationResult.weather_input
               (StoragePlanningResult.evaporation_data plan')).
Proof.
  split; [reflexivity |].
  intros id1 now1 id2 now2 db id1' now1' id2' now2' db' plan plan' s s'.
  unfold calculate_storage_planning_endpoint, surface_area_default.
  destruct (calculate_penman_evaporation _ _ _ _) as [[rate comps] |];
    cbn [bind]; [| discriminate].
  unfold calculate_storage_planning.
  cbn [EvaporationResult.evaporation_rate].
  destruct (py_truediv (py_round rate 3) 1000) as [q |]; cbn [bind]; [| discriminate].
  match goal with
  | |- context [seasonal_totals ?v] => destruct (seasonal_totals v) as [totals |]
  end; cbn [bind]; [| discriminate].
  intros [= <- _] [= <- _]. repeat split.
Qed.

Lemma calculate_storage_planning_endpoint_sample id1 now1 id2 now2 db sa :
  exists plan s,
    calculate_storage_planning_endpoint id1 now1 id2 now2 db sample_weather sa
    = Some (plan, s).
Proof.
  unfold calculate_storage_planning_endpoint, sample_weather.
  cbn [WeatherInput.temperature WeatherInput.humidity WeatherInput.wind_speed
       WeatherInput.solar_radiation].
  rewrite (penman_returns 25 60 2 20) by (apply in_range_defined; lra). cbn [bind].
  rewrite storage_planning_returns. cbn [bind]. eexists; eexists; reflexivity.
Qed.

Lemma C8_surface_area_default_witness :
  exists plan plan' s s',
    calculate_storage_planning_endpoint "e-1" sample_instant "s-1" sample_instant
      Db.empty sample_weather None = Some (plan, s)
    /\ calculate_storage_planning_endpoint "e-2" later_instant "s-2" later_instant
         Db.empty sample_weather (Some 1000) = Some (plan', s')
    /\ StoragePlanningResult.water_balance plan
       = StoragePlanningResult.water_balance plan'.
Proof.
  destruct (calculate_storage_planning_endpoint_sample "e-1" sample_instant "s-1"
              sample_instant Db.empty None) as (plan & s & H).
  destruct (calculate_storage_planning_endpoint_sample "e-2" later_instant "s-2"
              later_instant Db.empty (Some 1000)) as (plan' & s' & H').
  exists plan, plan', s, s'. split; [exact H |]. split; [exact H' |].
  destruct (C8_surface_area_default sample_weather) as [_ Hfields].
  destruct (Hfields _ _ _ _ _ _ _ _ _ _ _ _ _ _ H H') as (_ & _ & _ & Hwb & _).
  exact Hwb.
Defined.

(* ================================================================= *)
(** * Further properties of the code *)

(** ** Rounding is monotone and idempotent *)

Lemma round_half_even_monotone (x y : R) :
  x <= y -> (round_half_even x <= round_half_even y)%Z.
Proof.
  intros Hxy.
  pose proof (round_half_even_bound x) as [Hx1 Hx2].
  pose proof (round_half_even_bound y) as [Hy1 Hy2].
  destruct (Z_le_gt_dec (round_half_even x) (round_half_even y)) as [Hle | Hgt];
    [exact Hle | exfalso].
  assert (H1 : (round_half_even y + 1 <= round_half_even x)%Z) by lia.
  apply IZR_le in H1. rewrite plus_IZR in H1.
  assert (Heq : x = y) by lra.
  rewrite Heq in Hgt. lia.
Qed.

Lemma py_round_monotone (x y : R) (n : nat) :
  x <= y -> py_round x n <= py_round y n.
Proof.
  intros Hxy. unfold py_round. pose proof (pow10_pos n) as Hp.
  apply Rmult_le_compat_r; [left; now apply Rinv_0_lt_compat |].
  apply IZR_le, round_half_even_monotone.
  apply Rmult_le_compat_r; lra.
Qed.

Lemma py_round_zero (n : nat) : py_round 0 n = 0.
Proof.
  replace 0 with (IZR 0 / 10 ^ n) at 1 by (unfold Rdiv; ring).
  rewrite py_round_exact. unfold Rdiv. ring.
Qed.

Lemma py_round_nonpos (x : R) (n : nat) : x <= 0 -> py_round x n <= 0.
Proof.
  intros Hx. rewrite <- (py_round_zero n). now apply py_round_monotone.
Qed.

(** ** The evaporation model: shape of the formula *)

Section PenmanShape.
Import PenmanSpec.

(** The two weights of the Penman sum are positive and add up to 1. *)
Lemma weights_convex (T : R) :
  T + 237.3 <> 0 ->
  0 < delta T / (delta T + psychro) < 1
  /\ psychro / (delta T + psychro) = 1 - delta T / (delta T + psychro).
Proof.
  intros HT. pose proof (delta_pos T HT) as Hd. unfold psychro.
  split; [| field; lra].
  apply div_window; lra.
Qed.

Lemma raw_monotone_solar (T h w s1 s2 : R) :
  T + 237.3 <> 0 -> s1 <= s2 -> raw T h w s1 <= raw T h w s2.
Proof.
  intros HT Hs. destruct (weights_convex T HT) as [[Ha _] _].
  unfold raw, radiation_component, rn.
  apply Rplus_le_compat_r. apply Rmult_le_compat_l; [lra |].
  apply Rmult_le_compat_r; [| exact Hs]. left. apply Rinv_0_lt_compat. lra.
Qed.


End PenmanShape.

(** X1: the returned rate never decreases when the solar radiation
    increases, the other three inputs being the same: wherever the two calls
    return, and they do return for every temperature above -237.3 (up to
    10^150). *)
Theorem rate_monotone_in_solar_radiation (T h w s1 s2 : R) :
  s1 <= s2 ->
  (forall r1 c1 r2 c2,
     calculate_penman_evaporation T h w s1 = Some (r1, c1) ->
     calculate_penman_evaporation T h w s2 = Some (r2, c2) ->
     r1 <= r2)
  /\ (-237.3 < T <= 1e150 ->
      exists r1 c1 r2 c2,
        calculate_penman_evaporation T h w s1 = Some (r1, c1)
        /\ calculate_penman_evaporation T h w s2 = Some (r2, c2)
        /\ r1 <= r2).
Proof.
  intros Hs.
  assert (Hmono : forall r1 c1 r2 c2,
            calculate_penman_evaporation T h w s1 = Some (r1, c1) ->
            calculate_penman_evaporation T h w s2 = Some (r2, c2) -> r1 <= r2).
  { intros r1 c1 r2 c2 H1 H2.
    destruct (penman_returns_inv _ _ _ _ _ _ H1) as ((HT & _) & -> & _).
    destruct (penman_returns_inv _ _ _ _ _ _ H2) as (_ & -> & _).
    apply Rle_max_compat_l. now apply raw_monotone_solar. }
  split; [exact Hmono |]. intros Hr.
  pose proof (penman_returns T h w s1 (in_range_defined T Hr)) as H1.
  pose proof (penman_returns T h w s2 (in_range_defined T Hr)) as H2.
  do 4 eexists. split; [exact H1 |]. split; [exact H2 |].
  exact (Hmono _ _ _ _ H1 H2).
Qed.

Lemma rate_monotone_in_solar_radiation_witness :
  exists r1 c1 r2 c2,
    calculate_penman_evaporation 25 60 2 10 = Some (r1, c1)
    /\ calculate_penman_evaporation 25 60 2 20 = Some (r2, c2)
    /\ r1 <= r2.
Proof.
  destruct (rate_monotone_in_solar_radiation 25 60 2 10 20) as [_ H]; [lra |].
  apply H. lra.
Defined.







(** ** The storage-planning model: signs, order of the seasons, balance *)

Section StorageShape.
Import StorageSpec.

Lemma seasonal_total_monotone (r A f1 f2 : R) :
  0 <= daily_loss r A -> f1 <= f2 ->
  round2 (seasonal_total r A f1) <= round2 (seasonal_total r A f2).
Proof.
  intros Hd Hf. apply py_round_monotone. unfold seasonal_total.
  apply Rmult_le_compat_r; [lra |]. now apply Rmult_le_compat_l.
Qed.

Lemma daily_loss_nonneg (r A : R) : 0 <= r -> 0 <= A -> 0 <= daily_loss r A.
Proof.
  intros Hr HA. unfold daily_loss. apply Rmult_le_pos; [| exact HA].
  apply Rmult_le_pos; [exact Hr |]. left. apply Rinv_0_lt_compat. lra.
Qed.

Lemma rounded_totals_sum_nonneg (r A : R) :
  0 <= daily_loss r A -> 0 <= rounded_totals_sum r A.
Proof.
  intros Hd. unfold rounded_totals_sum, round2, seasonal_total.
  assert (H : forall f, 0 <= f -> 0 <= py_round (daily_loss r A * f * 90) 2).
  { intros f Hf. apply py_round_nonneg.
    apply Rmult_le_pos; [now apply Rmult_le_pos | lra]. }
  pose proof (H 0.8 ltac:(lra)). pose proof (H 1.3 ltac:(lra)).
  pose proof (H 0.7 ltac:(lra)). pose proof (H 0.4 ltac:(lra)). lra.
Qed.

Lemma rounded_totals_sum_nonpos (r A : R) :
  daily_loss r A <= 0 -> rounded_totals_sum r A <= 0.
Proof.
  intros Hd. unfold rounded_totals_sum, round2, seasonal_total.
  assert (H : forall f, 0 <= f -> py_round (daily_loss r A * f * 90) 2 <= 0).
  { intros f Hf. apply py_round_nonpos. nra. }
  pose proof (H 0.8 ltac:(lra)). pose proof (H 1.3 ltac:(lra)).
  pose proof (H 0.7 ltac:(lra)). pose proof (H 0.4 ltac:(lra)). lra.
Qed.
End StorageShape.

(** X7: a plan for a zero rate or a zero surface area is all zeros: every
    season's daily and total loss, the annual loss, the buffer and both
    capacity figures. *)
Theorem zero_rate_or_area_gives_zero_plan (er : EvaporationResult.t) (A : R) :
  EvaporationResult.evaporation_rate er = 0 \/ A = 0 ->
  exists plan,
    calculate_storage_planning er A = Some plan
    /\ PlanningData.reservoir_capacity_needed plan = 0
    /\ PlanningData.seasonal_analysis plan
       = map (fun item : string * R =>
                (fst item,
                 [ ("daily_evaporation_loss"%string, 0);
                   ("seasonal_total_loss"%string, 0);
                   ("percentage_factor"%string, snd item) ]))
           seasonal_factors
    /\ PlanningData.water_balance plan
       = [ ("annual_evaporation_loss"%string, 0);
           ("recommended_buffer"%string, 0);
           ("total_recommended_capacity"%string, 0);
           ("surface_area_assumed"%string, A) ].
Proof.
  intros Hz. eexists. split; [apply storage_planning_returns |].
  set (r := EvaporationResult.evaporation_rate er) in *.
  assert (Hd : StorageSpec.daily_loss r A = 0)
    by (unfold StorageSpec.daily_loss; destruct Hz as [-> | ->]; lra).
  assert (Hrec : forall f, StorageSpec.season_record r A f
                 = [ ("daily_evaporation_loss"%string, 0);
                     ("seasonal_total_loss"%string, 0);
                     ("percentage_factor"%string, f) ]).
  { intros f. unfold StorageSpec.season_record, StorageSpec.seasonal_total,
      StorageSpec.round2. rewrite Hd, !Rmult_0_l, py_round_zero. reflexivity. }
  assert (Hsum : StorageSpec.rounded_totals_sum r A = 0).
  { unfold StorageSpec.rounded_totals_sum, StorageSpec.seasonal_total,
      StorageSpec.round2. rewrite Hd, !Rmult_0_l, py_round_zero. lra. }
  cbn [PlanningData.reservoir_capacity_needed PlanningData.seasonal_analysis
       PlanningData.water_balance].
  rewrite Hsum, !Hrec, !Rmult_0_l, py_round_zero. repeat split.
Qed.

Lemma zero_rate_or_area_gives_zero_plan_witness :
  exists plan,
    calculate_storage_planning
      (EvaporationResult.mk "e" 7.142 sample_weather [] sample_instant) 0
    = Some plan
    /\ PlanningData.reservoir_capacity_needed plan = 0.
Proof.
  destruct (zero_rate_or_area_gives_zero_plan
              (EvaporationResult.mk "e" 7.142 sample_weather [] sample_instant) 0)
    as (plan & H & Hc & _); [now right |].
  exists plan. split; [exact H | exact Hc].
Defined.

(** X8: for a nonnegative rate and a nonnegative surface area nothing in the
    plan is negative, and the recorded seasonal totals are ordered as the
    factors are: winter <= autumn <= spring <= summer. *)
Theorem nonnegative_inputs_give_ordered_plan (er : EvaporationResult.t) (A : R) :
  0 <= EvaporationResult.evaporation_rate er -> 0 <= A ->
  exists plan winter autumn spring summer annual buffer total,
    calculate_storage_planning er A = Some plan
    /\ season_field plan "winter" "seasonal_total_loss" = Some winter
    /\ season_field plan "autumn" "seasonal_total_loss" = Some autumn
    /\ season_field plan "spring" "seasonal_total_loss" = Some spring
    /\ season_field plan "summer" "seasonal_total_loss" = Some summer
    /\ balance_field plan "annual_evaporation_loss" = Some annual
    /\ balance_field plan "recommended_buffer" = Some buffer
    /\ balance_field plan "total_recommended_capacity" = Some total
    /\ 0 <= winter <= autumn /\ autumn <= spring <= summer
    /\ 0 <= annual /\ 0 <= buffer /\ 0 <= total
    /\ 0 <= PlanningData.reservoir_capacity_needed plan.
Proof.
  intros Hr HA. set (r := EvaporationResult.evaporation_rate er) in *.
  pose proof (daily_loss_nonneg r A Hr HA) as Hd.
  pose proof (rounded_totals_sum_nonneg r A Hd) as Hsum.
  do 8 eexists. split; [apply storage_planning_returns |].
  do 7 (split; [reflexivity |]). fold r.
  repeat split.
  - apply py_round_nonneg. unfold StorageSpec.seasonal_total. nra.
  - apply seasonal_total_monotone; [exact Hd | lra].
  - apply seasonal_total_monotone; [exact Hd | lra].
  - apply seasonal_total_monotone; [exact Hd | lra].
  - now apply py_round_nonneg.
  - apply py_round_nonneg. lra.
  - apply py_round_nonneg. lra.
  - cbn [PlanningData.reservoir_capacity_needed]. apply py_round_nonneg. lra.
Qed.

Lemma nonnegative_inputs_give_ordered_plan_witness :
  exists plan,
    calculate_storage_planning
      (EvaporationResult.mk "e" 7.142 sample_weather [] sample_instant) 1000
    = Some plan
    /\ 0 <= PlanningData.reservoir_capacity_needed plan.
Proof.
  destruct (nonnegative_inputs_give_ordered_plan
              (EvaporationResult.mk "e" 7.142 sample_weather [] sample_instant) 1000)
    as (plan & ? & ? & ? & ? & ? & ? & ? & H & Hrest);
    [cbn; lra | lra |].
  exists plan. split; [exact H |]. apply Hrest.
Defined.

(** X9: the surface area is not validated: with a nonnegative rate and a
    negative (or zero) surface area the plan is still returned, and its
    annual loss and recommended capacity are zero or negative. *)
Theorem negative_area_gives_nonpositive_plan (er : EvaporationResult.t) (A : R) :
  0 <= EvaporationResult.evaporation_rate er -> A <= 0 ->
  exists plan annual,
    calculate_storage_planning er A = Some plan
    /\ balance_field plan "annual_evaporation_loss" = Some annual
    /\ balance_field plan "surface_area_assumed" = Some A
    /\ annual <= 0
    /\ PlanningData.reservoir_capacity_needed plan <= 0.
Proof.
  intros Hr HA. set (r := EvaporationResult.evaporation_rate er) in *.
  assert (Hd : StorageSpec.daily_loss r A <= 0)
    by (unfold StorageSpec.daily_loss; nra).
  pose proof (rounded_totals_sum_nonpos r A Hd) as Hsum.
  do 2 eexists. split; [apply storage_planning_returns |].
  do 2 (split; [reflexivity |]). fold r. split.
  - now apply py_round_nonpos.
  - cbn [PlanningData.reservoir_capacity_needed]. apply py_round_nonpos. lra.
Qed.

Lemma negative_area_gives_nonpositive_plan_witness :
  exists plan,
    calculate_storage_planning
      (EvaporationResult.mk "e" 7.142 sample_weather [] sample_instant) (-500)
    = Some plan
    /\ PlanningData.reservoir_capacity_needed plan <= 0.
Proof.
  destruct (negative_area_gives_nonpositive_plan
              (EvaporationResult.mk "e" 7.142 sample_weather [] sample_instant) (-500))
    as (plan & ? & H & _ & _ & _ & Hc); [cbn; lra | lra |].
  exists plan. split; [exact H | exact Hc].
Defined.


(** ** The handlers: failure, composition, what each write touches *)

(** X11: both computing handlers raise exactly when the evaporation model
    does: at the temperature -237.3 (division by zero), between about
    -243.2178 and -237.3 ([math.exp] overflows) and where
    [(temperature + 237.3)^2] leaves the float range ([**] overflows);
    whatever the other fields, the surface area, the identifiers, the clock
    and the store, they answer at every other temperature, and the planning
    model itself never raises. *)
Theorem handlers_raise_with_the_model (w : WeatherInput.t) :
  let T := WeatherInput.temperature w in
  let model_raises :=
    T = -237.3 \/ exp_overflow_low < T < -237.3
    \/ float_max < (T + 237.3) ^ 2 in
  (forall new_id now db,
     calculate_evaporation new_id now db w = None <-> model_raises)
  /\ (forall id1 now1 id2 now2 db surface_area,
        calculate_storage_planning_endpoint id1 now1 id2 now2 db w surface_area
        = None
        <-> model_raises)
  /\ (forall er area, calculate_storage_planning er area <> None).
Proof.
  destruct w as [T h ws s loc]. cbn [WeatherInput.temperature]. cbv zeta.
  split; [| split].
  - intros new_id now db. rewrite <- (penman_raises_on T h ws s).
    unfold calculate_evaporation.
    cbn [WeatherInput.temperature WeatherInput.humidity WeatherInput.wind_speed
         WeatherInput.solar_radiation].
    destruct (calculate_penman_evaporation T h ws s) as [[rate comps] |];
      cbn [bind]; split; intros; try discriminate; reflexivity.
  - intros id1 now1 id2 now2 db sa. rewrite <- (penman_raises_on T h ws s).
    unfold calculate_storage_planning_endpoint.
    cbn [WeatherInput.temperature WeatherInput.humidity WeatherInput.wind_speed
         WeatherInput.solar_radiation].
    destruct (calculate_penman_evaporation T h ws s) as [[rate comps] |];
      cbn [bind].
    + rewrite storage_planning_returns. cbn [bind]. split; intros; discriminate.
    + split; reflexivity.
  - intros er area. rewrite storage_planning_returns. discriminate.
Qed.

(** X12: the storage-planning handler is the evaporation handler followed by
    the planning model: the record it embeds as [evaporation_data] is the one
    [calculate_evaporation] returns for the same identifier and instant, the
    plan is [calculate_storage_planning] of that record (so of the rate
    already rounded to 3 decimals) and the surface area or its default, and
    the only write is one document appended to [storage_planning_results]. *)
Theorem storage_endpoint_composes (id1 : string) (now1 : datetime.t)
    (id2 : string) (now2 : datetime.t) (db : Db.t) (w : WeatherInput.t)
    (surface_area : option R) (r : EvaporationResult.t) (db1 : Db.t) :
  calculate_evaporation id1 now1 db w = Some (r, db1) ->
  exists plan,
    calculate_storage_planning r
      (match surface_area with Some a => a | None => 1000 end) = Some plan
    /\ let result :=
         StoragePlanningResult.mk id2
           (PlanningData.reservoir_capacity_needed plan)
           (PlanningData.seasonal_analysis plan)
           (PlanningData.irrigation_recommendations plan)
           (PlanningData.water_balance plan) r now2 in
       calculate_storage_planning_endpoint id1 now1 id2 now2 db w surface_area
       = Some (result,
               Db.mk (Db.evaporation_results db)
                 (insert_one (Db.storage_planning_results db)
                    (storage_planning_doc result))
                 (Db.status_checks db)).
Proof.
  unfold calculate_evaporation, calculate_storage_planning_endpoint,
    surface_area_default.
  destruct (calculate_penman_evaporation _ _ _ _) as [[rate comps] |];
    cbn [bind]; [| discriminate].
  intros [= <- _].
  eexists. split; [apply storage_planning_returns |].
  cbv zeta. rewrite storage_planning_returns. cbn [bind]. reflexivity.
Qed.

Lemma storage_endpoint_composes_witness :
  exists r plan,
    calculate_storage_planning r 1000 = Some plan
    /\ exists result db',
         calculate_storage_planning_endpoint "e-1" sample_instant "s-1"
           later_instant Db.empty sample_weather None = Some (result, db')
         /\ StoragePlanningResult.evaporation_data result = r.
Proof.
  destruct (calculate_evaporation_sample "e-1" sample_instant Db.empty)
    as [r Hr].
  destruct (storage_endpoint_composes "e-1" sample_instant "s-1" later_instant
              Db.empty sample_weather None r _ Hr) as (plan & Hplan & Hend).
  exists r, plan. split; [exact Hplan |].
  do 2 eexists. split; [exact Hend | reflexivity].
Defined.

(** What a status ping writes. *)
Lemma create_status_check_db new_id now db input :
  snd (create_status_check new_id now db input)
  = Db.mk (Db.evaporation_results db) (Db.storage_planning_results db)
      (insert_one (Db.status_checks db)
         (StatusDoc.mk new_id (StatusCheckCreate.client_name input)
            (BsonString (isoformat now)))).
Proof. reflexivity. Qed.

Lemma step_appends (db db' : Db.t) :
  step db db' ->
  exists e s c,
    Db.evaporation_results db' = Db.evaporation_results db ++ e
    /\ Db.storage_planning_results db' = Db.storage_planning_results db ++ s
    /\ Db.status_checks db' = Db.status_checks db ++ c
    /\ (List.length e + List.length s + List.length c = 1)%nat.
Proof.
  intros [new_id now db0 w result db0' Hv Hcall
         | id1 now1 id2 now2 db0 w sa result db0' Hv1 Hv2 Hcall
         | new_id now db0 input Hv].
  - destruct (calculate_evaporation_inv _ _ _ _ _ _ Hcall) as (_ & _ & _ & ->).
    exists [evaporation_doc result], [], []. cbn. rewrite !app_nil_r. auto.
  - destruct (calculate_storage_planning_endpoint_inv _ _ _ _ _ _ _ _ _ Hcall)
      as (_ & _ & ->).
    exists [], [storage_planning_doc result], []. cbn. rewrite !app_nil_r. auto.
  - rewrite create_status_check_db. do 3 eexists. cbn.
    split; [symmetry; apply app_nil_r |].
    split; [symmetry; apply app_nil_r |]. split; reflexivity.
Qed.

(** X13: the store is append-only: along any sequence of requests every
    collection keeps the documents it had, unchanged and in place, as a
    prefix of what it holds afterwards. *)
Theorem store_is_append_only (db db' : Db.t) :
  run db db' ->
  exists e s c,
    Db.evaporation_results db' = Db.evaporation_results db ++ e
    /\ Db.storage_planning_results db' = Db.storage_planning_results db ++ s
    /\ Db.status_checks db' = Db.status_checks db ++ c.
Proof.
  induction 1 as [db | db db' db'' _ (e & s & c & He & Hs & Hc) Hstep].
  - exists [], [], []. now rewrite !app_nil_r.
  - destruct (step_appends _ _ Hstep) as (e' & s' & c' & He' & Hs' & Hc' & _).
    exists (e ++ e'), (s ++ s'), (c ++ c').
    rewrite He', Hs', Hc', He, Hs, Hc, !app_assoc. auto.
Qed.

Lemma store_is_append_only_witness :
  Db.status_checks one_ping <> []
  /\ exists c, Db.status_checks two_pings = Db.status_checks one_ping ++ c.
Proof.
  split; [discriminate |].
  destruct (store_is_append_only one_ping two_pings) as (e & s & c & _ & _ & Hc).
  - eapply run_step; [apply run_refl |].
    apply (step_create_status_check "ping-2" later_instant one_ping
             (StatusCheckCreate.mk "client")).
    reflexivity.
  - exists c. exact Hc.
Defined.

(** X14: a write shows only through its own read: an evaporation request
    leaves the storage-planning history and the status list as they were, a
    storage-planning request leaves the evaporation history and the status
    list as they were (the evaporation it computes is not added to the
    evaporation history), and a status ping leaves both histories as they
    were. *)
Theorem writes_do_not_cross_collections (db : Db.t) :
  (forall new_id now w result db',
     calculate_evaporation new_id now db w = Some (result, db') ->
     get_storage_planning_history db' = get_storage_planning_history db
     /\ get_status_checks db' = get_status_checks db)
  /\ (forall id1 now1 id2 now2 w surface_area result db',
        calculate_storage_planning_endpoint id1 now1 id2 now2 db w surface_area
        = Some (result, db') ->
        get_evaporation_history db' = get_evaporation_history db
        /\ get_status_checks db' = get_status_checks db)
  /\ (forall new_id now input,
        let db' := snd (create_status_check new_id now db input) in
        get_evaporation_history db' = get_evaporation_history db
        /\ get_storage_planning_history db' = get_storage_planning_history db).
Proof.
  split; [| split].
  - intros new_id now w result db' Hcall.
    destruct (calculate_evaporation_inv _ _ _ _ _ _ Hcall) as (_ & _ & _ & ->).
    split; reflexivity.
  - intros id1 now1 id2 now2 w sa result db' Hcall.
    destruct (calculate_storage_planning_endpoint_inv _ _ _ _ _ _ _ _ _ Hcall)
      as (_ & _ & ->).
    split; reflexivity.
  - intros new_id now input. split; reflexivity.
Qed.

Lemma writes_do_not_cross_collections_witness :
  exists result db',
    calculate_storage_planning_endpoint "e-1" sample_instant "s-1" later_instant
      Db.empty sample_weather None = Some (result, db')
    /\ get_evaporation_history db' = get_evaporation_history Db.empty.
Proof.
  destruct (calculate_storage_planning_endpoint_sample "e-1" sample_instant "s-1"
              later_instant Db.empty None) as (result & db' & H).
  exists result, db'. split; [exact H |].
  destruct (writes_do_not_cross_collections Db.empty) as (_ & Hs & _).
  now destruct (Hs _ _ _ _ _ _ _ _ H).
Defined.

(** ** Reading after writing *)

Section MapRaiseFacts.
Context {A B : Type} (f : A -> option B).

Lemma map_raise_firstn (n : nat) : forall (l : list A) (rs : list B),
  map_raise f l = Some rs -> map_raise f (firstn n l) = Some (firstn n rs).
Proof.
  induction n as [| n IH]; intros l rs H; [reflexivity |].
  destruct l as [| x l]; cbn [map_raise] in H.
  - injection H as <-. reflexivity.
  - destruct (f x) as [y |] eqn:Hx; cbn [bind] in H; [| discriminate].
    destruct (map_raise f l) as [ys |] eqn:Hl; cbn [bind] in H; [| discriminate].
    injection H as <-. cbn [firstn map_raise]. rewrite Hx. cbn [bind].
    now rewrite (IH l ys Hl).
Qed.

Lemma map_raise_app : forall (l1 l2 : list A) (rs1 rs2 : list B),
  map_raise f l1 = Some rs1 -> map_raise f l2 = Some rs2 ->
  map_raise f (l1 ++ l2) = Some (rs1 ++ rs2).
Proof.
  intros l1 l2 rs1 rs2 H1 H2. apply map_raise_Forall2.
  apply Forall2_app; now apply map_raise_Forall2.
Qed.

Lemma map_raise_none_iff : forall l : list A,
  map_raise f l = None <-> exists x, In x l /\ f x = None.
Proof.
  induction l as [| x l IH]; cbn [map_raise].
  - split; [discriminate | intros (x & [] & _)].
  - destruct (f x) as [y |] eqn:Hx; cbn [bind].
    + destruct (map_raise f l) as [ys |] eqn:Hl; cbn [bind].
      * split; [discriminate |]. intros (z & [<- | Hz] & Hfz); [congruence |].
        assert (Hnone : @None (list B) = None) by reflexivity.
        destruct IH as [_ IH]. discriminate IH. now exists z.
      * split; [| reflexivity]. intros _. destruct IH as [IH _].
        destruct (IH eq_refl) as (z & Hz & Hfz). exists z. split; [now right | exact Hfz].
    + split; [| reflexivity]. intros _. exists x. split; [now left | exact Hx].
Qed.
End MapRaiseFacts.

Section ReadAfterWrite.
Context {D R : Type} (key : D -> bson_ts) (of_doc : D -> option R)
  (ts : R -> datetime.t).

(** The read that follows the write of [doc], against the read before it. *)
Lemma read_after_write (n : nat) (store : list D) (doc : D) (r : R) :
  Forall (doc_ok key of_doc ts) store ->
  doc_ok key of_doc ts doc ->
  of_doc doc = Some r ->
  exists old_page page,
    map_raise of_doc (firstn (S n) (sort_desc key store)) = Some old_page
    /\ map_raise of_doc (firstn (S n) (sort_desc key (insert_one store doc)))
       = Some page
    /\ ((List.length store <= n)%nat -> In r page)
    /\ (Forall (fun y => bson_compare (key y) (key doc) = Lt) store ->
        page = r :: firstn n old_page).
Proof.
  intros Hok Hdoc Hr.
  destruct (history_read key of_doc ts (S n) store Hok) as (old_page & Hold & _).
  assert (Hok' : Forall (doc_ok key of_doc ts) (insert_one store doc)).
  { unfold insert_one. apply Forall_app. split; [exact Hok |]. now constructor. }
  destruct (history_read key of_doc ts (S n) (insert_one store doc) Hok')
    as (page & Hpage & _).
  exists old_page, page. split; [exact Hold |]. split; [exact Hpage |]. split.
  - intros Hlen. apply map_raise_Forall2 in Hpage.
    rewrite firstn_all2 in Hpage
      by (rewrite sort_desc_length; unfold insert_one; rewrite length_app;
          cbn [List.length]; lia).
    assert (Hin : In doc (sort_desc key (insert_one store doc))).
    { apply (Permutation_in _ (Permutation_sym (sort_desc_perm _ _))).
      unfold insert_one. apply in_or_app. right. now left. }
    destruct (Forall2_in_l _ _ _ Hpage _ Hin) as (r' & Hr' & Hdoc').
    rewrite Hr in Hdoc'. now injection Hdoc' as <-.
  - intros Holder. unfold insert_one in Hpage.
    rewrite (sort_desc_newest_last key doc store Holder) in Hpage.
    cbn [firstn map_raise] in Hpage. rewrite Hr in Hpage. cbn [bind] in Hpage.
    apply (map_raise_firstn of_doc n) in Hold.
    rewrite firstn_firstn, Nat.min_l in Hold by lia.
    rewrite Hold in Hpage. cbn [bind] in Hpage. now injection Hpage as <-.
Qed.

(** Documents whose parsed timestamps are all earlier than [now] sort below
    a document stamped [now]. *)
Lemma older_documents_sort_below (store : list D) (now : datetime.t) :
  Forall (doc_ok key of_doc ts) store ->
  valid_datetime now = true ->
  (forall doc r, In doc store -> of_doc doc = Some r ->
     dt_compare (ts r) now = Lt) ->
  Forall (fun y => bson_compare (key y) (BsonString (isoformat now)) = Lt) store.
Proof.
  intros Hok Hv Holder. rewrite Forall_forall in *. intros doc Hdoc.
  destruct (Hok doc Hdoc) as (r & Hr & Hvr & Hk).
  rewrite Hk. cbn [bson_compare]. rewrite compare_isoformat by assumption.
  now apply (Holder doc r).
Qed.
End ReadAfterWrite.

Lemma storage_planning_of_doc_storage_planning_doc (r : StoragePlanningResult.t) :
  valid_datetime (StoragePlanningResult.timestamp r) = true ->
  valid_datetime
    (EvaporationResult.timestamp (StoragePlanningResult.evaporation_data r)) = true ->
  storage_planning_of_doc (storage_planning_doc r) = Some r.
Proof.
  intros Hv He. unfold storage_planning_of_doc, storage_planning_doc.
  cbn [StoragePlanningDoc.timestamp StoragePlanningDoc.evaporation_data
       parse_timestamp].
  rewrite (fromisoformat_isoformat _ Hv). cbn [bind].
  rewrite (evaporation_of_doc_evaporation_doc _ He). cbn [bind].
  now destruct r.
Qed.

Lemma reachable_storage_docs_ok (db : Db.t) :
  reachable db ->
  Forall (doc_ok StoragePlanningDoc.timestamp storage_planning_of_doc
            StoragePlanningResult.timestamp) (Db.storage_planning_results db).
Proof.
  intros Hreach. destruct (reachable_db_wf db Hreach) as (_ & Hs & _).
  eapply Forall_impl; [| exact Hs]. intros doc [H1 H2].
  now apply storage_planning_doc_ok.
Qed.

Lemma reachable_evaporation_docs_ok (db : Db.t) :
  reachable db ->
  Forall (doc_ok EvaporationDoc.timestamp evaporation_of_doc
            EvaporationResult.timestamp) (Db.evaporation_results db).
Proof.
  intros Hreach. destruct (reachable_db_wf db Hreach) as (He & _ & _).
  eapply Forall_impl; [| exact He]. intros doc. apply evaporation_doc_ok.
Qed.

(** X15: a stored storage-planning record reads back identical, its own
    timestamp and the timestamp of the evaporation record embedded in it
    included; the history read that follows the write lists it whenever the
    limit of 50 cuts nothing, and puts it first, ahead of the 49 newest of
    the previous page, whenever every plan already stored is older. *)
Theorem storage_plan_persist_then_list (id1 : string) (now1 : datetime.t)
    (id2 : string) (now2 : datetime.t) (db : Db.t) (w : WeatherInput.t)
    (surface_area : option R) (result : StoragePlanningResult.t) (db' : Db.t) :
  reachable db ->
  valid_datetime now1 = true -> valid_datetime now2 = true ->
  calculate_storage_planning_endpoint id1 now1 id2 now2 db w surface_area
  = Some (result, db') ->
  storage_planning_of_doc (storage_planning_doc result) = Some result
  /\ exists old_page page,
       get_storage_planning_history db = Some old_page
       /\ get_storage_planning_history db' = Some page
       /\ ((List.length (Db.storage_planning_results db) < 50)%nat ->
           In result page)
       /\ ((forall doc r, In doc (Db.storage_planning_results db) ->
              storage_planning_of_doc doc = Some r ->
              dt_compare (StoragePlanningResult.timestamp r) now2 = Lt) ->
           page = result :: firstn 49 old_page).
Proof.
  intros Hreach Hv1 Hv2 Hcall.
  destruct (calculate_storage_planning_endpoint_inv _ _ _ _ _ _ _ _ _ Hcall)
    as (Hts2 & Hts1 & ->).
  assert (Hback : storage_planning_of_doc (storage_planning_doc result) = Some result)
    by (apply storage_planning_of_doc_storage_planning_doc; congruence).
  split; [exact Hback |].
  pose proof (reachable_storage_docs_ok db Hreach) as Hok.
  assert (Hdoc : doc_ok StoragePlanningDoc.timestamp storage_planning_of_doc
                   StoragePlanningResult.timestamp (storage_planning_doc result)).
  { exists result. split; [exact Hback |]. split; [congruence | reflexivity]. }
  destruct (read_after_write StoragePlanningDoc.timestamp storage_planning_of_doc
              StoragePlanningResult.timestamp 49 _ _ result Hok Hdoc Hback)
    as (old_page & page & Hold & Hpage & Hin & Hhead).
  exists old_page, page. split; [exact Hold |]. split; [exact Hpage |]. split.
  - intros Hlen. apply Hin. lia.
  - intros Holder. apply Hhead.
    cbn [storage_planning_doc StoragePlanningDoc.timestamp]. rewrite Hts2.
    now apply (older_documents_sort_below StoragePlanningDoc.timestamp
                 storage_planning_of_doc StoragePlanningResult.timestamp).
Qed.

Lemma storage_plan_persist_then_list_witness :
  exists result db',
    calculate_storage_planning_endpoint "e-1" sample_instant "s-1" later_instant
      Db.empty sample_weather None = Some (result, db')
    /\ get_storage_planning_history db' = Some [result].
Proof.
  destruct (calculate_storage_planning_endpoint_sample "e-1" sample_instant "s-1"
              later_instant Db.empty None) as (result & db' & H).
  exists result, db'. split; [exact H |].
  destruct (storage_plan_persist_then_list "e-1" sample_instant "s-1"
              later_instant Db.empty sample_weather None result db'
              reachable_empty eq_refl eq_refl H)
    as (_ & old_page & page & Hold & Hpage & _ & Hhead).
  rewrite Hpage. injection Hold as <-.
  rewrite Hhead; [reflexivity |]. intros doc r Hin. destruct Hin.
Defined.

(** X16: when every evaporation record already stored is older than the new
    one, the evaporation history after the write is the new record followed
    by the first 49 records of the history before it: the oldest of a full
    page drops out. *)
Theorem history_after_newest_write (new_id : string) (now : datetime.t)
    (db : Db.t) (w : WeatherInput.t) (result : EvaporationResult.t) (db' : Db.t) :
  reachable db ->
  valid_datetime now = true ->
  (forall doc r, In doc (Db.evaporation_results db) ->
     evaporation_of_doc doc = Some r ->
     dt_compare (EvaporationResult.timestamp r) now = Lt) ->
  calculate_evaporation new_id now db w = Some (result, db') ->
  exists old_page,
    get_evaporation_history db = Some old_page
    /\ get_evaporation_history db' = Some (result :: firstn 49 old_page).
Proof.
  intros Hreach Hv Holder Hcall.
  destruct (calculate_evaporation_inv _ _ _ _ _ _ Hcall) as (_ & Hts & _ & ->).
  assert (Hback : evaporation_of_doc (evaporation_doc result) = Some result)
    by (apply evaporation_of_doc_evaporation_doc; congruence).
  pose proof (reachable_evaporation_docs_ok db Hreach) as Hok.
  assert (Hdoc : doc_ok EvaporationDoc.timestamp evaporation_of_doc
                   EvaporationResult.timestamp (evaporation_doc result)).
  { exists result. split; [exact Hback |]. split; [congruence | reflexivity]. }
  destruct (read_after_write EvaporationDoc.timestamp evaporation_of_doc
              EvaporationResult.timestamp 49 _ _ result Hok Hdoc Hback)
    as (old_page & page & Hold & Hpage & _ & Hhead).
  exists old_page. split; [exact Hold |].
  unfold get_evaporation_history. cbn [Db.evaporation_results].
  rewrite Hpage. f_equal. apply Hhead.
  cbn [evaporation_doc EvaporationDoc.timestamp]. rewrite Hts.
  now apply (older_documents_sort_below EvaporationDoc.timestamp
               evaporation_of_doc EvaporationResult.timestamp).
Qed.

Lemma history_after_newest_write_witness :
  exists r1 db1 r2 db2,
    calculate_evaporation "older" sample_instant Db.empty sample_weather
    = Some (r1, db1)
    /\ calculate_evaporation "newer" later_instant db1 sample_weather
       = Some (r2, db2)
    /\ get_evaporation_history db2 = Some [r2; r1].
Proof.
  destruct (calculate_evaporation_sample "older" sample_instant Db.empty)
    as [r1 H1].
  set (db1 := Db.mk (insert_one (Db.evaporation_results Db.empty) (evaporation_doc r1))
                (Db.storage_planning_results Db.empty) (Db.status_checks Db.empty)) in *.
  destruct (calculate_evaporation_sample "newer" later_instant db1) as [r2 H2].
  match type of H2 with _ = Some (_, ?d) => set (db2 := d) in * end.
  exists r1, db1, r2, db2. split; [exact H1 |]. split; [exact H2 |].
  destruct (calculate_evaporation_inv _ _ _ _ _ _ H1) as (_ & Hts1 & _ & _).
  assert (Hback : evaporation_of_doc (evaporation_doc r1) = Some r1)
    by (apply evaporation_of_doc_evaporation_doc; rewrite Hts1; reflexivity).
  assert (Hreach : reachable db1).
  { apply reachable_step with Db.empty; [constructor |].
    now apply (step_calculate_evaporation "older" sample_instant Db.empty
                 sample_weather r1). }
  destruct (history_after_newest_write "newer" later_instant db1 sample_weather
              r2 db2 Hreach eq_refl) as (old_page & Hold & Hnew).
  - intros doc r [<- | []] Hr. rewrite Hback in Hr. injection Hr as <-.
    rewrite Hts1. reflexivity.
  - exact H2.
  - rewrite Hnew. f_equal. f_equal.
    unfold get_evaporation_history, db1 in Hold.
    cbn [Db.evaporation_results Db.empty insert_one app sort_desc fold_right
         insert_desc firstn map_raise] in Hold.
    rewrite Hback in Hold. cbn [bind] in Hold. injection Hold as <-. reflexivity.
Defined.

(** X19: the strings stored for two valid instants compare, byte by byte, as
    the instants do (also between a string with a fraction and one without),
    and two different instants never share a string: sorting the store on
    the string field is sorting by time. *)
Theorem stored_strings_sort_chronologically (d1 d2 : datetime.t) :
  valid_datetime d1 = true -> valid_datetime d2 = true ->
  String.compare (isoformat d1) (isoformat d2) = dt_compare d1 d2
  /\ (isoformat d1 = isoformat d2 -> d1 = d2).
Proof.
  intros H1 H2. split; [now apply compare_isoformat |].
  intros Heq. pose proof (fromisoformat_isoformat d1 H1) as E1.
  rewrite Heq, (fromisoformat_isoformat d2 H2) in E1. now injection E1.
Qed.

Lemma stored_strings_sort_chronologically_witness :
  String.compare (isoformat sample_instant) (isoformat later_instant) = Lt.
Proof.
  destruct (stored_strings_sort_chronologically sample_instant later_instant
              eq_refl eq_refl) as [H _].
  rewrite H. reflexivity.
Defined.

(** ** What the stored documents hold *)




